(** * Supplier-invoice extraction: a shallow embedding of [get_invoices.py]

    The script walks a cursor-paginated listing endpoint once per credential,
    flattens every page into rows, filters and enriches the rows with a
    transaction date fetched from a second endpoint, and loads the result.

    Python values are embedded as an inductive type, the HTTP layer as an
    oracle indexed by the number of requests already issued, and every
    side effect (request, sleep, table load) as an event appended to a trace.
    Loops that the source bounds only by what the server answers carry a
    fuel argument; running out of fuel is a result of its own, distinct from
    returning and from raising.  Console output is not modelled. *)

From Stdlib Require Import List String Ascii ZArith QArith Bool Lia Arith.
From Stdlib Require Import Permutation.
Import ListNotations.
Local Open Scope string_scope.
Local Open Scope list_scope.
Local Open Scope Z_scope.
Set Warnings "-register-all".

(** ** Python values *)

(** A Python [float]: JSON decoding yields finite values, and Python's
    decoder also accepts the literals NaN and Infinity. *)
Inductive pyfloat : Type :=
| FNaN
| FInf (negative : bool)
| FFin (q : Q).

(** The values the script handles: what [response.json()] yields, plus the
    tuple that line 76 builds. Dictionaries are association lists read by
    their first binding. A [str] is the string of the bytes of its UTF-8
    encoding. *)
Inductive pyval : Type :=
| PNone
| PBool (b : bool)
| PInt (z : Z)
| PFloat (f : pyfloat)
| PStr (s : string)
| PList (l : list pyval)
| PDict (d : list (string * pyval))
| PTuple (l : list pyval).

Inductive exn : Type :=
| ConnectionError
| JSONDecodeError
| AttributeError
| TypeError
| KeyError (key : string)
| ValueError.

(** A pure Python expression either has a value or raises. *)
Inductive result (A : Type) : Type :=
| Ok (a : A)
| Raise (e : exn).
Arguments Ok {A} a.
Arguments Raise {A} e.

Definition rbind {A B} (r : result A) (k : A -> result B) : result B :=
  match r with
  | Ok a => k a
  | Raise e => Raise e
  end.

Declare Scope py_scope.
Delimit Scope py_scope with py.
Notation "'let*' x ':=' r 'in' k" := (rbind r (fun x => k))
  (at level 10, x name, r at level 100, k at level 200) : py_scope.

Definition is_empty {A} (l : list A) : bool :=
  match l with
  | [] => true
  | _ :: _ => false
  end.

Definition float_truthy (f : pyfloat) : bool :=
  match f with
  | FFin q => negb (Qeq_bool q 0)
  | _ => true
  end.

(** [bool(v)]: what [if v:] and [not v] test. *)
Definition truthy (v : pyval) : bool :=
  match v with
  | PNone => false
  | PBool b => b
  | PInt z => negb (z =? 0)
  | PFloat f => float_truthy f
  | PStr s => negb (s =? EmptyString)%string
  | PList l => negb (is_empty l)
  | PDict d => negb (is_empty d)
  | PTuple l => negb (is_empty l)
  end.

Fixpoint assoc (k : string) (d : list (string * pyval)) : option pyval :=
  match d with
  | [] => None
  | (k', v) :: d' => if (k =? k')%string then Some v else assoc k d'
  end.

(** [d.get(k, default)] on a dictionary. *)
Definition dict_get (d : list (string * pyval)) (k : string) (default : pyval)
  : pyval :=
  match assoc k d with
  | Some v => v
  | None => default
  end.

(** [v.get(k, default)]: only dictionaries have the method. *)
Definition py_get (v : pyval) (k : string) (default : pyval) : result pyval :=
  match v with
  | PDict d => Ok (dict_get d k default)
  | _ => Raise AttributeError
  end.

(** The elements of a [str], one per byte: a character of several bytes
    gives several where Python gives one. The loops of the script that
    could meet a string raise at its first element and do nothing on the
    empty string, so they do not tell the two apart. *)
Fixpoint chars (s : string) : list pyval :=
  match s with
  | EmptyString => []
  | String c s' => PStr (String c EmptyString) :: chars s'
  end.

(** [for x in v]: the elements the loop visits. *)
Definition py_iter (v : pyval) : result (list pyval) :=
  match v with
  | PList l => Ok l
  | PTuple l => Ok l
  | PStr s => Ok (chars s)
  | PDict d => Ok (map (fun kv => PStr (fst kv)) d)
  | _ => Raise TypeError
  end.

(** [v == True] *)
Definition eq_True (v : pyval) : bool :=
  match v with
  | PBool b => b
  | PInt z => z =? 1
  | PFloat (FFin q) => Qeq_bool q 1
  | _ => false
  end.

(** [v != s] for a string literal [s] *)
Definition ne_str (v : pyval) (s : string) : bool :=
  match v with
  | PStr s' => negb (s' =? s)%string
  | _ => true
  end.

(** ** Rows *)

(** The dictionary appended to [rows] at lines 95-107. *)
Record row : Type := {
  tag : string;
  amount : pyval;
  invoice_date : pyval;
  echeance : pyval;
  label : pyval;
  payment_status : pyval;
  updated_at : pyval;
  reconciled : pyval;
  accounting_status : pyval;
  fournisseur_id : pyval;
  matching_transaction : pyval
}.

(** The body of the [for invoice in ...] loop, lines 76-107. *)
Definition make_row (token_name : string) (invoice : pyval) : result row :=
  (let* amount := py_get invoice "amount" PNone in
   let amount := PTuple [amount] in
   let* invoice_date := py_get invoice "date" PNone in
   let* due_date := py_get invoice "deadline" PNone in
   let* label := py_get invoice "label" PNone in
   let* payment_status := py_get invoice "payment_status" PNone in
   let* updated_at := py_get invoice "updated_at" PNone in
   let* reconciled := py_get invoice "reconciled" PNone in
   let* accounting_status := py_get invoice "accounting_status" PNone in
   let* fournisseur := py_get invoice "supplier" PNone in
   let* fournisseur_id :=
     (if truthy fournisseur then py_get fournisseur "id" PNone else Ok PNone) in
   let* matched_transaction := py_get invoice "matched_transactions" PNone in
   let* transaction :=
     (if truthy matched_transaction
      then py_get matched_transaction "url" PNone else Ok PNone) in
   Ok {| tag := token_name;
         amount := amount;
         invoice_date := invoice_date;
         echeance := due_date;
         label := label;
         payment_status := payment_status;
         updated_at := updated_at;
         reconciled := reconciled;
         accounting_status := accounting_status;
         fournisseur_id := fournisseur_id;
         matching_transaction := transaction |})%py.

(** The whole [for] loop over one page: rows in item order, or the first
    exception an item raises. *)
Fixpoint make_rows (token_name : string) (invoices : list pyval)
  : result (list row) :=
  match invoices with
  | [] => Ok []
  | invoice :: rest =>
      (let* r := make_row token_name invoice in
       let* rs := make_rows token_name rest in
       Ok (r :: rs))%py
  end.

(** ** The HTTP layer, events and the effect monad *)

(** What the script reads of a [requests.Response]; [json] is [None] when
    [response.json()] raises. *)
Record response : Type := {
  status_code : Z;
  text : string;
  json : option pyval
}.

(** [bool(response)] is [response.ok]: no 4xx or 5xx status. *)
Definition response_ok (r : response) : bool :=
  negb ((400 <=? status_code r) && (status_code r <? 600)).

Record headers : Type := {
  accept : string;
  authorization : string
}.

(** The [params] dictionary of the listing request. [p_filter] holds the
    value that [json.dumps] serialises; [p_cursor] is the ["cursor"] key,
    [None] while the key is absent. *)
Record params : Type := {
  p_filter : pyval;
  p_cursor : option pyval
}.

Record request : Type := {
  req_url : string;
  req_headers : headers;
  req_params : option params
}.

Inductive http_outcome : Type :=
| Responds (r : response)
| Fails.

(** The server and the network: what the [n]-th request of a thread gets. *)
Definition http_layer : Type := nat -> request -> http_outcome.

(** A row of the frame once the [transaction_date] column is attached. *)
Record enriched : Type := {
  base : row;
  transaction_date : pyval
}.

Inductive event : Type :=
| EGet (r : request)
| ESleep (seconds : Q)
| ELoad (final : list enriched).

Definition trace : Type := list event.

Definition is_get (e : event) : bool :=
  match e with
  | EGet _ => true
  | _ => false
  end.

Definition calls (w : trace) : nat := List.length (filter is_get w).

(** How a run of effectful code ends: with a value, with an exception, or
    still looping when the fuel is spent. Each keeps the events so far. *)
Inductive run (A : Type) : Type :=
| Val (w : trace) (a : A)
| Exn (w : trace) (e : exn)
| Fuel (w : trace).
Arguments Val {A} w a.
Arguments Exn {A} w e.
Arguments Fuel {A} w.

Definition M (A : Type) : Type := trace -> run A.

Definition ret {A} (a : A) : M A := fun w => Val w a.

Definition bind {A B} (c : M A) (k : A -> M B) : M B :=
  fun w =>
    match c w with
    | Val w' a => k a w'
    | Exn w' e => Exn w' e
    | Fuel w' => Fuel w'
    end.

Definition out_of_fuel {A} : M A := fun w => Fuel w.

Definition lift {A} (r : result A) : M A :=
  fun w =>
    match r with
    | Ok a => Val w a
    | Raise e => Exn w e
    end.

(** [try: c  except Exception: h] *)
Definition try_except {A} (c : M A) (h : exn -> M A) : M A :=
  fun w =>
    match c w with
    | Exn w' e => h e w'
    | other => other
    end.

Notation "x <- c ;; k" := (bind c (fun x => k))
  (at level 61, c at next level, right associativity) : py_scope.
Notation "c ;; k" := (bind c (fun _ => k))
  (at level 61, right associativity) : py_scope.

Definition sleep (seconds : Q) : M unit :=
  fun w => Val (w ++ [ESleep seconds]) tt.

Section Fetchers.

Variable http : http_layer.

(** [requests.get(url, headers=..., params=...)] *)
Definition requests_get (url : string) (hdrs : headers) (ps : option params)
  : M response :=
  fun w =>
    let rq := {| req_url := url; req_headers := hdrs; req_params := ps |} in
    match http (calls w) rq with
    | Responds r => Val (w ++ [EGet rq]) r
    | Fails => Exn (w ++ [EGet rq]) ConnectionError
    end.

(** The [while retries < max_retries] loop of [request_with_retries]. *)
Fixpoint request_loop (fuel : nat) (url : string) (hdrs : headers)
  (ps : params) (max_retries retries : nat) : M (option response) :=
  if (retries <? max_retries)%nat then
    match fuel with
    | O => out_of_fuel
    | S fuel' =>
        (response <- requests_get url hdrs (Some ps) ;;
         if status_code response =? 200 then ret (Some response)
         else if status_code response =? 429 then
           let wait := Z.min 60 (2 ^ Z.of_nat retries) in
           sleep (inject_Z wait) ;;
           request_loop fuel' url hdrs ps max_retries (S retries)
         else ret None)%py
    end
  else ret None.

(** The loop runs at most [max_retries] times, so that much fuel is
    enough: [request_with_retries_outcome] shows that it never runs out. *)
Definition request_with_retries (url : string) (hdrs : headers) (ps : params)
  (max_retries : nat) : M (option response) :=
  request_loop max_retries url hdrs ps max_retries 0.

Definition BASE_URL : string :=
  "https://app.pennylane.com/api/external/v2/supplier_invoices".

Definition filters : pyval :=
  PList [PDict [("field", PStr "date"); ("operator", PStr "gteq");
                ("value", PStr "2025-01-01")]].

Definition bearer (token_value : string) : headers :=
  {| accept := "application/json";
     authorization := String.append "Bearer " token_value |}.

(** [if not response:] on what [request_with_retries] returned. *)
Definition no_response (r : option response) : bool :=
  match r with
  | None => true
  | Some r => negb (response_ok r)
  end.

(** [params["cursor"] = cursor] *)
Definition set_cursor (ps : params) (cursor : pyval) : params :=
  {| p_filter := p_filter ps; p_cursor := Some cursor |}.

Definition is_None (v : pyval) : bool :=
  match v with
  | PNone => true
  | _ => false
  end.

(** Lines 58-59: [if cursor: params["cursor"] = cursor]. The dictionary is
    created once before the loop, so a key set in one iteration is still
    there in the next. *)
Definition with_cursor (ps : params) (cursor : pyval) : params :=
  if truthy cursor then set_cursor ps cursor else ps.

(** What one iteration makes of the response: leave the loop, or carry on
    with the page's rows and the new [has_more] and [cursor]. *)
Inductive page : Type :=
| Break
| Page (new_rows : list row) (has_more cursor : pyval).

(** Lines 62-109, from [if not response] to the assignment of [cursor]. *)
Definition read_page (token_name : string) (response : option response)
  : result page :=
  if no_response response then Ok Break
  else
    match response with
    | None => Ok Break
    | Some response =>
        match json response with
        | None => Ok Break
        | Some data =>
            (let* items := py_get data "items" PNone in
             if is_None items then Ok Break
             else
               let* items := py_get data "items" (PList []) in
               let* invoices := py_iter items in
               let* new_rows := make_rows token_name invoices in
               let* has_more := py_get data "has_more" (PBool false) in
               let* cursor := py_get data "next_cursor" PNone in
               Ok (Page new_rows has_more cursor))%py
        end
    end.

(** The [while has_more] loop of [fetch_invoices_for_token], lines 57-110,
    from the loop variables as they stand at the top of an iteration. *)
Fixpoint fetch_loop (fuel : nat) (token_name : string) (hdrs : headers)
  (rows : list row) (cursor has_more : pyval) (ps : params)
  : M (list row) :=
  if truthy has_more then
    match fuel with
    | O => out_of_fuel
    | S fuel' =>
        let ps := with_cursor ps cursor in
        (response <- request_with_retries BASE_URL hdrs ps 5 ;;
         page <- lift (read_page token_name response) ;;
         match page with
         | Break => ret rows
         | Page new_rows has_more cursor =>
             sleep (1 # 2) ;;
             fetch_loop fuel' token_name hdrs (rows ++ new_rows)
               cursor has_more ps
         end)%py
    end
  else ret rows.

Definition fetch_invoices_for_token (fuel : nat)
  (token_name token_value : string) : M (list row) :=
  let hdrs := bearer token_value in
  let ps := {| p_filter := filters; p_cursor := None |} in
  fetch_loop fuel token_name hdrs [] PNone (PBool true) ps.

(** [items[0].get("date") if items else None], line 122. *)
Definition first_date (items : pyval) : result pyval :=
  if truthy items then
    match items with
    | PList (x :: _) => py_get x "date" PNone
    | PTuple (x :: _) => py_get x "date" PNone
    | PStr _ => Raise AttributeError
    | PDict _ => Raise (KeyError "0")
    | _ => Raise TypeError
    end
  else Ok PNone.

(** One pass through the [try] block of lines 118-131: [Some v] when it
    returns [v], [None] when control falls through to the loop test. *)
Definition transaction_attempt (url : string) (hdrs : headers)
  (retries : nat) : M (option pyval) :=
  (response <- requests_get url hdrs None ;;
   if status_code response =? 200 then
     match json response with
     | None => lift (Raise JSONDecodeError)
     | Some data =>
         items <- lift (py_get data "items" (PList [])) ;;
         date <- lift (first_date items) ;;
         ret (Some date)
     end
   else if status_code response =? 429 then
     sleep (inject_Z (2 ^ Z.of_nat retries)) ;; ret None
   else if (500 <=? status_code response) && (status_code response <? 600)
   then
     sleep (inject_Z (2 ^ Z.of_nat retries)) ;; ret None
   else ret (Some PNone))%py.

(** The [while retries < max_retries] loop of
    [fetch_transaction_date_with_retries], lines 117-134. Nothing in the
    body assigns [retries]. *)
Fixpoint transaction_loop (fuel : nat) (url : string) (hdrs : headers)
  (max_retries retries : nat) : M pyval :=
  if (retries <? max_retries)%nat then
    match fuel with
    | O => out_of_fuel
    | S fuel' =>
        (r <- try_except (transaction_attempt url hdrs retries)
                         (fun _ => ret (Some PNone)) ;;
         match r with
         | Some date => ret date
         | None => transaction_loop fuel' url hdrs max_retries retries
         end)%py
    end
  else ret PNone.

Definition fetch_transaction_date_with_retries (fuel : nat) (url : string)
  (hdrs : headers) (max_retries : nat) : M pyval :=
  transaction_loop fuel url hdrs max_retries 0.

End Fetchers.

(** ** The frame stages of the script *)

(** What the script uses of a [pandas.DataFrame] built from a list of row
    dictionaries: its column labels and its records. Cell values are kept
    as they were gathered. pandas gives a column whose values are all
    numbers or null one numeric dtype (a null among integers turns the
    column into floats), which this record does not follow; a column that
    holds a string keeps its cells as they are. The tests of lines 157,
    166 and 186 answer the same on the converted cells, and what is
    stated about loaded frames reads the tag, the reference and the date
    of a row where these are strings. *)
Record DataFrame : Type := {
  columns : list string;
  records : list row
}.

Definition row_columns : list string :=
  ["tag"; "amount"; "invoice_date"; "echeance"; "label"; "payment_status";
   "updated_at"; "reconciled"; "accounting_status"; "fournisseur_id";
   "matching_transaction"].

(** [pd.DataFrame(all_rows)]: the columns are the keys of the dictionaries,
    so an empty list gives a frame with no column at all. *)
Definition pd_DataFrame (all_rows : list row) : DataFrame :=
  {| columns := if is_empty all_rows then [] else row_columns;
     records := all_rows |}.

Definition cell (c : string) (r : row) : pyval :=
  if (c =? "tag")%string then PStr (tag r)
  else if (c =? "amount")%string then amount r
  else if (c =? "invoice_date")%string then invoice_date r
  else if (c =? "echeance")%string then echeance r
  else if (c =? "label")%string then label r
  else if (c =? "payment_status")%string then payment_status r
  else if (c =? "updated_at")%string then updated_at r
  else if (c =? "reconciled")%string then reconciled r
  else if (c =? "accounting_status")%string then accounting_status r
  else if (c =? "fournisseur_id")%string then fournisseur_id r
  else if (c =? "matching_transaction")%string then matching_transaction r
  else PNone.

(** [df[c]]: a [KeyError] when the frame has no such column. *)
Definition column (df : DataFrame) (c : string) : result (list pyval) :=
  if existsb (String.eqb c) (columns df)
  then Ok (map (cell c) (records df))
  else Raise (KeyError c).

Fixpoint mask_and (a b : list bool) : list bool :=
  match a, b with
  | x :: a', y :: b' => (x && y) :: mask_and a' b'
  | _, _ => []
  end.

(** [df[mask]]: the records at which the mask is true. *)
Fixpoint select {A} (l : list A) (mask : list bool) : list A :=
  match l, mask with
  | x :: l', m :: mask' => if m then x :: select l' mask' else select l' mask'
  | _, _ => []
  end.

(** Line 157:
    [df[(df['reconciled'] == True) & (df['accounting_status'] != 'archived')]] *)
Definition filter_frame (df : DataFrame) : result DataFrame :=
  (let* rec := column df "reconciled" in
   let* status := column df "accounting_status" in
   let mask := mask_and (map eq_True rec)
                        (map (fun v => ne_str v "archived") status) in
   Ok {| columns := columns df; records := select (records df) mask |})%py.

(** The test the mask applies to one row. *)
Definition keep (r : row) : bool :=
  eq_True (reconciled r) && ne_str (accounting_status r) "archived".

(** A Python [str] is held as the bytes of its UTF-8 encoding: a character
    up to U+007F is one byte of the string, a later one two to four. *)
Definition byte_is (n : nat) (c : ascii) : bool :=
  (nat_of_ascii c =? n)%nat.

Definition byte_in (lo hi : nat) (c : ascii) : bool :=
  ((lo <=? nat_of_ascii c) && (nat_of_ascii c <=? hi))%nat.

(** The characters [str.strip()] removes, those on which [str.isspace]
    holds, by the length of their encoding.
    One byte: U+0009 to U+000D, U+001C to U+0020. *)
Definition space1 (a : ascii) : bool :=
  byte_in 9 13 a || byte_in 28 32 a.

(** Two bytes: U+0085 (C2 85) and U+00A0 (C2 A0). *)
Definition space2 (a b : ascii) : bool :=
  byte_is 194 a && (byte_is 133 b || byte_is 160 b).

(** Three bytes: U+1680 (E1 9A 80); U+2000 to U+200A (E2 80 80 to 8A),
    U+2028, U+2029 (E2 80 A8, A9), U+202F (E2 80 AF); U+205F (E2 81 9F);
    U+3000 (E3 80 80). *)
Definition space3 (a b c : ascii) : bool :=
  byte_is 225 a && byte_is 154 b && byte_is 128 c
  || byte_is 226 a && byte_is 128 b
     && (byte_in 128 138 c || byte_in 168 169 c || byte_is 175 c)
  || byte_is 226 a && byte_is 129 b && byte_is 159 c
  || byte_is 227 a && byte_is 128 b && byte_is 128 c.

(** [s.lstrip()]: the string from its first character that is not
    whitespace. *)
Fixpoint lstrip (s : string) : string :=
  match s with
  | EmptyString => EmptyString
  | String a s1 =>
      if space1 a then lstrip s1
      else
        match s1 with
        | EmptyString => s
        | String b s2 =>
            if space2 a b then lstrip s2
            else
              match s2 with
              | EmptyString => s
              | String c s3 => if space3 a b c then lstrip s3 else s
              end
        end
  end.

(** [s.rstrip()]: the string without its longest ending made of
    whitespace. No such ending starts inside a character, since no
    encoding of a whitespace character starts with a continuation byte. *)
Fixpoint rstrip (s : string) : string :=
  match s with
  | EmptyString => EmptyString
  | String c s' =>
      if (lstrip s =? EmptyString)%string then EmptyString
      else String c (rstrip s')
  end.

(** [s.strip()] *)
Definition strip (s : string) : string := rstrip (lstrip s).

Definition bytes (l : list nat) : string :=
  fold_right (fun n s => String (ascii_of_nat n) s) EmptyString l.

(** The encodings of the whitespace characters. *)
Definition whitespace : list string :=
  map bytes
    [[9]; [10]; [11]; [12]; [13]; [28]; [29]; [30]; [31]; [32];
     [194; 133]; [194; 160]; [225; 154; 128];
     [226; 128; 128]; [226; 128; 129]; [226; 128; 130]; [226; 128; 131];
     [226; 128; 132]; [226; 128; 133]; [226; 128; 134]; [226; 128; 135];
     [226; 128; 136]; [226; 128; 137]; [226; 128; 138];
     [226; 128; 168]; [226; 128; 169]; [226; 128; 175];
     [226; 129; 159]; [227; 128; 128]]%nat.

(** A string made of whitespace characters only; the empty one is. *)
Inductive blank : string -> Prop :=
| blank_nil : blank EmptyString
| blank_app x s : In x whitespace -> blank s -> blank (String.append x s).

(** [pd.isna] on a scalar: null and NaN are missing. *)
Definition isna_scalar (v : pyval) : bool :=
  match v with
  | PNone => true
  | PFloat FNaN => true
  | _ => false
  end.

Fixpoint common_prefix (a b : list nat) : list nat :=
  match a, b with
  | x :: a', y :: b' => if (x =? y)%nat then x :: common_prefix a' b' else []
  | _, _ => []
  end.

(** The shape of [np.asarray(v, dtype=object)]: nested sequences give one
    axis per level as long as all siblings agree on the length. *)
Fixpoint np_shape (v : pyval) : list nat :=
  let inner :=
    fun (l : list pyval) =>
      match l with
      | [] => []
      | x :: xs =>
          (fix agree (acc : list nat) (ys : list pyval) : list nat :=
             match ys with
             | [] => acc
             | y :: ys' => agree (common_prefix acc (np_shape y)) ys'
             end) (np_shape x) xs
      end in
  match v with
  | PList l => List.length l :: inner l
  | PTuple l => List.length l :: inner l
  | _ => []
  end.

(** The only element of an array of size one. *)
Fixpoint np_leaf (v : pyval) : pyval :=
  match v with
  | PList [x] => np_leaf x
  | PTuple [x] => np_leaf x
  | _ => v
  end.

Definition np_size (shape : list nat) : nat := fold_right Nat.mul 1%nat shape.

Section Script.

(** [bool()] of an empty NumPy array: [False] with a warning up to
    NumPy 2.1, a [ValueError] from 2.2 on. *)
Variable empty_array_truth : result bool.

(** The [tokens] dictionary: credential tag to bearer token. *)
Variable tokens : list (string * string).

(** The listing endpoint as each credential's worker thread sees it, and
    the transaction endpoint as the main thread sees it. *)
Variable listing : string -> http_layer.
Variable transactions : http_layer.

(** [pd.isna(url)] as the [or] chain of line 166 tests it. On a scalar
    [pd.isna] answers with a boolean, on a list with an array of booleans
    of the list's shape, whose truth value exists only at size one; on any
    other object it answers [False]. *)
Definition isna_truth (url : pyval) : result bool :=
  match url with
  | PList _ =>
      match np_size (np_shape url) with
      | O => empty_array_truth
      | S O => Ok (isna_scalar (np_leaf url))
      | _ => Raise ValueError
      end
  | _ => Ok (isna_scalar url)
  end.

(** Line 166:
    [not url or pd.isna(url) or not isinstance(url, str) or not url.strip()] *)
Definition skip_row (url : pyval) : result bool :=
  if negb (truthy url) then Ok true
  else
    (let* na := isna_truth url in
     if na then Ok true
     else
       match url with
       | PStr s => Ok (negb (truthy (PStr (strip s))))
       | _ => Ok true
       end)%py.

Fixpoint tokens_get (tag : string) (d : list (string * string))
  : option string :=
  match d with
  | [] => None
  | (k, v) :: d' => if (tag =? k)%string then Some v else tokens_get tag d'
  end.

(** [if not token:] on what [tokens.get(tag)] returned. *)
Definition no_token (t : option string) : bool :=
  match t with
  | None => true
  | Some v => (v =? EmptyString)%string
  end.

(** The body of the [for idx, row in df.iterrows()] loop, lines 163-182:
    the value appended to [transaction_dates]. *)
Definition transaction_date_of (fuel : nat) (r : row) : M pyval :=
  let url := matching_transaction r in
  let tag := tag r in
  (skip <- lift (skip_row url) ;;
   if skip then ret PNone
   else
     let token := tokens_get tag tokens in
     if no_token token then ret PNone
     else
       match token, url with
       | Some token, PStr url =>
           fetch_transaction_date_with_retries transactions fuel url
             (bearer token) 5
       | _, _ => ret PNone (* not reached: the row would have been skipped *)
       end)%py.

Fixpoint enrich (fuel : nat) (rs : list row) : M (list pyval) :=
  match rs with
  | [] => ret []
  | r :: rest =>
      (date <- transaction_date_of fuel r ;;
       dates <- enrich fuel rest ;;
       ret (date :: dates))%py
  end.

(** [df["transaction_date"] = transaction_dates] *)
Fixpoint attach (rs : list row) (dates : list pyval) : list enriched :=
  match rs, dates with
  | r :: rs', d :: dates' =>
      {| base := r; transaction_date := d |} :: attach rs' dates'
  | _, _ => []
  end.

(** [df[df["transaction_date"].notna()]] *)
Definition dropna (df : list enriched) : list enriched :=
  filter (fun e => negb (isna_scalar (transaction_date e))) df.

(** [pandas_gbq.to_gbq(df, ...)], replacing the table. The event records
    the frame handed over; what the warehouse client does with it is not
    modelled. *)
Definition to_gbq (final : list enriched) : M unit :=
  fun w => Val (w ++ [ELoad final]) tt.

(** The [for future in as_completed(...)] loop, lines 146-153, over the
    tasks in the order in which they complete. A task that raised is
    skipped; one that never finishes is waited for. *)
Fixpoint gather (done : list (run (list row))) (all_rows : list row)
  : M (list row) :=
  match done with
  | [] => ret all_rows
  | Val _ result :: rest => gather rest (all_rows ++ result)
  | Exn _ _ :: rest => gather rest all_rows
  | Fuel _ :: _ => out_of_fuel
  end.

(** One worker: [fetch_invoices_for_token] in a thread of its own. *)
Definition task (fuel : nat) (item : string * string) : run (list row) :=
  fetch_invoices_for_token (listing (fst item)) fuel (fst item) (snd item) [].

(** Lines 138-195, for the credentials [completed] listed as their tasks
    complete. The trace is the main thread's. *)
Definition script (fuel : nat) (completed : list (string * string)) : M unit :=
  (all_rows <- gather (map (task fuel) completed) [] ;;
   let df := pd_DataFrame all_rows in
   df <- lift (filter_frame df) ;;
   transaction_dates <- enrich fuel (records df) ;;
   let df := attach (records df) transaction_dates in
   let df := dropna df in
   to_gbq df)%py.

End Script.

(** ** Reading a run *)

Definition trace_of {A} (r : run A) : trace :=
  match r with
  | Val w _ => w
  | Exn w _ => w
  | Fuel w => w
  end.

(** The requests of a trace, oldest first. *)
Fixpoint requests (w : trace) : list request :=
  match w with
  | [] => []
  | EGet rq :: w' => rq :: requests w'
  | _ :: w' => requests w'
  end.

(** The frames handed to the load stage. *)
Fixpoint loaded (w : trace) : list (list enriched) :=
  match w with
  | [] => []
  | ELoad final :: w' => final :: loaded w'
  | _ :: w' => loaded w'
  end.

(** The ["cursor"] parameter of each listing request, [None] when absent. *)
Definition cursors_sent (w : trace) : list (option pyval) :=
  map (fun rq => match req_params rq with
                 | Some ps => p_cursor ps
                 | None => None
                 end) (requests w).

(** A status on which the transaction fetcher goes round its loop again. *)
Definition transient (r : response) : bool :=
  (status_code r =? 429)
  || (500 <=? status_code r) && (status_code r <? 600).

(** One round of a retry loop: the request and the wait that follows. *)
Definition round (rq : request) (wait : Z) : trace :=
  [EGet rq; ESleep (inject_Z wait)].

Fixpoint rounds (rq : request) (wait : nat -> Z) (first n : nat) : trace :=
  match n with
  | O => []
  | S n' => round rq (wait first) ++ rounds rq wait (S first) n'
  end.

Definition listing_request (hdrs : headers) (ps : params) : request :=
  {| req_url := BASE_URL; req_headers := hdrs; req_params := Some ps |}.

Definition transaction_request (url : string) (hdrs : headers) : request :=
  {| req_url := url; req_headers := hdrs; req_params := None |}.

Definition backoff (retries : nat) : Z := Z.min 60 (2 ^ Z.of_nat retries).

(** The events a retry loop for [rq] may add: requests for [rq] and waits. *)
Definition retry_event (rq : request) (e : event) : Prop :=
  e = EGet rq \/ exists q, e = ESleep q.

(** What a call of the listing retry loop can come to: the trace grows by
    retry events only, and the call returns a 200 response or nothing, or
    passes on the failure of its last request. It never runs out of fuel. *)
Definition retry_outcome (http : http_layer) (rq : request) (w : trace)
  (r : run (option response)) : Prop :=
  exists evs, trace_of r = w ++ evs /\ Forall (retry_event rq) evs /\
    match r with
    | Val _ None => True
    | Val _ (Some resp) =>
        status_code resp = 200 /\
        http (calls (trace_of r) - 1)%nat rq = Responds resp
    | Exn _ e => e = ConnectionError /\ http (calls (trace_of r) - 1)%nat rq = Fails
    | Fuel _ => False
    end.

(** A value on which [if v: v.get(...)] does not raise. *)
Definition falsy_or_dict (v : pyval) : bool :=
  match v with
  | PDict _ => true
  | _ => negb (truthy v)
  end.

(** An invoice item from which a row can be built. *)
Definition invoice_ok (v : pyval) : bool :=
  match v with
  | PDict d =>
      falsy_or_dict (dict_get d "supplier" PNone)
      && falsy_or_dict (dict_get d "matched_transactions" PNone)
  | _ => false
  end.

(** A decoded body the page loop can read: an object whose [items] is
    null or missing, or iterates over invoice items. *)
Definition page_ok (data : pyval) : bool :=
  match data with
  | PDict d =>
      match dict_get d "items" PNone with
      | PNone => true
      | items =>
          match py_iter items with
          | Ok invoices => forallb invoice_ok invoices
          | Raise _ => false
          end
      end
  | _ => false
  end.

(** What the page loop takes for the end of the data: no response, a body
    that does not decode, or a decoded object without [items]. *)
Definition no_page (resp : option response) : Prop :=
  resp = None
  \/ (exists r, resp = Some r /\ json r = None)
  \/ (exists r d, resp = Some r /\ json r = Some (PDict d)
                  /\ dict_get d "items" PNone = PNone).

(** The HTTP layer answers every request with some response. *)
Definition answers (http : http_layer) : Prop :=
  forall n rq, http n rq <> Fails.

(** Every decodable body of a 200 response has the listing's shape. *)
Definition well_shaped (http : http_layer) : Prop :=
  forall n rq r data,
    http n rq = Responds r -> status_code r = 200 -> json r = Some data ->
    page_ok data = true.

(** Along [o :: l], a cursor parameter that is present stays present. *)
Fixpoint sticky_from (o : option pyval) (l : list (option pyval)) : Prop :=
  match l with
  | [] => True
  | x :: l' => (o <> None -> x <> None) /\ sticky_from x l'
  end.

(** A 200 response carrying a listing page. *)
Definition is_page (r : response) (items : list pyval) (has_more : pyval)
  (next_cursor : pyval) : Prop :=
  status_code r = 200 /\
  exists d, json r = Some (PDict d) /\
    dict_get d "items" PNone = PList items /\
    dict_get d "has_more" (PBool false) = has_more /\
    dict_get d "next_cursor" PNone = next_cursor.

(** Nesting depth of a value, counting lists and tuples. *)
Fixpoint depth (v : pyval) : nat :=
  let deepest :=
    fix deepest (l : list pyval) : nat :=
      match l with
      | [] => O
      | x :: l' => Nat.max (depth x) (deepest l')
      end in
  match v with
  | PList l => S (deepest l)
  | PTuple l => S (deepest l)
  | _ => O
  end.

(** A computation that hands nothing to the load stage. *)
Definition quiet {A} (c : M A) : Prop :=
  forall w, loaded (trace_of (c w)) = loaded w.

(** ** Scenarios *)

Definition status_only (code : Z) : response :=
  {| status_code := code; text := EmptyString; json := None |}.

(** A server that gives every request the same answer. *)
Definition always (r : response) : http_layer := fun _ _ => Responds r.

(** A network on which no request gets through. *)
Definition unreachable : http_layer := fun _ _ => Fails.

(** A server that answers the [n]-th request with the [n]-th response of a
    list and with 404 after that. *)
Definition served (rs : list response) : http_layer :=
  fun n _ => Responds (nth n rs (status_only 404)).

Definition body (data : pyval) : response :=
  {| status_code := 200; text := EmptyString; json := Some data |}.

Definition listing_page (items : list pyval) (has_more : bool)
  (next_cursor : pyval) : response :=
  body (PDict [("items", PList items); ("has_more", PBool has_more);
               ("next_cursor", next_cursor)]).

Definition invoice (amount : Z) (reconciled : bool) (status : string)
  (url : pyval) : pyval :=
  PDict [("amount", PInt amount); ("date", PStr "2025-02-01");
         ("reconciled", PBool reconciled); ("accounting_status", PStr status);
         ("supplier", PDict [("id", PInt 7)]);
         ("matched_transactions", PDict [("url", url)])].

Definition invoice_row (token_name : string) (amount : Z) (reconciled : bool)
  (status : string) (url : pyval) : row :=
  {| tag := token_name;
     amount := PTuple [PInt amount];
     invoice_date := PStr "2025-02-01";
     echeance := PNone;
     label := PNone;
     payment_status := PNone;
     updated_at := PNone;
     reconciled := PBool reconciled;
     accounting_status := PStr status;
     fournisseur_id := PInt 7;
     matching_transaction := url |}.

Definition first_params : params := {| p_filter := filters; p_cursor := None |}.

Definition sample_url : string := "https://app.pennylane.com/t/1".

Definition sample_items : list pyval :=
  [invoice 120 true "validated" (PStr sample_url);
   invoice 80 false "validated" (PStr sample_url);
   invoice 45 true "archived" (PStr sample_url);
   invoice 30 true "validated" (PStr EmptyString)].

Definition sample_tokens : list (string * string) := [("acme", "t")].

Definition sample_listing : string -> http_layer :=
  fun _ => served [listing_page sample_items false PNone].

Definition sample_transactions : http_layer :=
  always (body (PDict [("items", PList [PDict [("date", PStr "2025-02-03")]])])).

Definition sample_final : list enriched :=
  [{| base := invoice_row "acme" 120 true "validated" (PStr sample_url);
      transaction_date := PStr "2025-02-03" |}].

(** An invoice whose transaction reference is a list of two values. *)
Definition list_url : pyval := PList [PInt 1; PInt 2].

(** ** Further readings of runs and responses *)

(** The waits of a trace, in seconds, oldest first. *)
Fixpoint sleeps (w : trace) : list Q :=
  match w with
  | [] => []
  | ESleep q :: w' => q :: sleeps w'
  | _ :: w' => sleeps w'
  end.

(** The rows a finished task contributes to [all_rows]: its result when
    it returned, nothing when it raised. *)
Definition rows_of (r : run (list row)) : list row :=
  match r with
  | Val _ rows => rows
  | _ => []
  end.

(** The date a transaction response carries: that of the first item, when
    the status is 200 and the body is an object whose [items] starts with
    an object; nothing otherwise. *)
Definition date_of (r : response) : pyval :=
  if status_code r =? 200 then
    match json r with
    | Some (PDict d) =>
        match dict_get d "items" (PList []) with
        | PList (PDict item :: _) => dict_get item "date" PNone
        | PTuple (PDict item :: _) => dict_get item "date" PNone
        | _ => PNone
        end
    | _ => PNone
    end
  else PNone.

(** What the transaction fetcher returns on an outcome that ends its loop;
    [None] for the 429 and 5xx answers, on which it tries again. *)
Definition final_answer (o : http_outcome) : option pyval :=
  match o with
  | Fails => Some PNone
  | Responds r => if transient r then None else Some (date_of r)
  end.

(** What the listing retry loop returns on an answer that ends it. *)
Definition listing_answer (r : response) : option response :=
  if status_code r =? 200 then Some r else None.

(** A computation that only extends the trace, and only with requests
    satisfying [P]. *)
Definition emits {A} (P : request -> Prop) (c : M A) : Prop :=
  forall w, exists evs,
    trace_of (c w) = w ++ evs /\ Forall P (requests evs).

(** A task that came to an end, by returning or by raising. *)
Definition finished (r : run (list row)) : Prop :=
  match r with
  | Fuel _ => False
  | _ => True
  end.

(** The request the enrichment loop may send for the row [r]: to the
    row's own reference, with the token of the row's own tag. *)
Definition request_for (tokens : list (string * string)) (r : row)
  (rq : request) : Prop :=
  matching_transaction r = PStr (req_url rq)
  /\ req_params rq = None
  /\ exists token, tokens_get (tag r) tokens = Some token
                   /\ token <> EmptyString
                   /\ req_headers rq = bearer token.

(** The request the enrichment loop sends for the row [r], if any: none
    for a reference that is not a string or is blank, none for a tag
    without a token or with an empty one. *)
Definition reference_request (tokens : list (string * string)) (r : row)
  : option request :=
  match matching_transaction r with
  | PStr url =>
      if (strip url =? EmptyString)%string then None
      else
        match tokens_get (tag r) tokens with
        | Some token =>
            if (token =? EmptyString)%string then None
            else Some (transaction_request url (bearer token))
        | None => None
        end
  | _ => None
  end.

Definition sent_for (tokens : list (string * string)) (r : row)
  : list request :=
  match reference_request tokens r with
  | Some rq => [rq]
  | None => []
  end.

(** The date of the row [r] when the endpoint's answer to a request [rq]
    carries the date [answer rq]. *)
Definition expected_date (tokens : list (string * string))
  (answer : request -> pyval) (r : row) : pyval :=
  match reference_request tokens r with
  | Some rq => answer rq
  | None => PNone
  end.

(** The columns of a loaded row that identify it and hold strings. *)
Definition loaded_view (e : enriched) : string * pyval * pyval :=
  (tag (base e), matching_transaction (base e), transaction_date e).

(** A date as the endpoint gives it: a string, or nothing. *)
Definition is_text (v : pyval) : Prop :=
  match v with
  | PNone => True
  | PStr _ => True
  | _ => False
  end.

(** * Properties *)

(** ** Basic facts about traces *)

Lemma calls_app (w1 w2 : trace) : calls (w1 ++ w2) = (calls w1 + calls w2)%nat.
Proof.
  unfold calls. rewrite filter_app, length_app. reflexivity.
Qed.

Lemma calls_get (w : trace) (rq : request) :
  calls (w ++ [EGet rq]) = S (calls w).
Proof.
  rewrite calls_app. cbn. lia.
Qed.

Lemma calls_sleep (w : trace) (q : Q) : calls (w ++ [ESleep q]) = calls w.
Proof.
  rewrite calls_app. cbn. lia.
Qed.

Lemma calls_round (w : trace) (rq : request) (wait : Z) :
  calls (w ++ round rq wait) = S (calls w).
Proof.
  rewrite calls_app. cbn. lia.
Qed.

Lemma requests_app (w1 w2 : trace) :
  requests (w1 ++ w2) = requests w1 ++ requests w2.
Proof.
  induction w1 as [|e w1 IH]; [reflexivity|].
  destruct e; cbn; rewrite IH; reflexivity.
Qed.

Lemma loaded_app (w1 w2 : trace) : loaded (w1 ++ w2) = loaded w1 ++ loaded w2.
Proof.
  induction w1 as [|e w1 IH]; [reflexivity|].
  destruct e; cbn; rewrite IH; reflexivity.
Qed.

Lemma cursors_sent_app (w1 w2 : trace) :
  cursors_sent (w1 ++ w2) = cursors_sent w1 ++ cursors_sent w2.
Proof.
  unfold cursors_sent. rewrite requests_app, map_app. reflexivity.
Qed.

(** ** The listing retry loop *)

Section RetryGet.

Variable http : http_layer.
Variables (url : string) (hdrs : headers) (ps : params).

Let rq : request :=
  {| req_url := url; req_headers := hdrs; req_params := Some ps |}.

Lemma request_loop_done (fuel m retries : nat) (w : trace) :
  (m <= retries)%nat ->
  request_loop http fuel url hdrs ps m retries w = Val w None.
Proof.
  intros H. destruct (Nat.ltb_spec retries m) as [Hlt|Hge]; [lia|].
  apply Nat.ltb_ge in Hge.
  destruct fuel; cbn [request_loop]; rewrite Hge; reflexivity.
Qed.

Lemma request_loop_429 (fuel m retries : nat) (w : trace) (r : response) :
  (retries < m)%nat ->
  http (calls w) rq = Responds r ->
  status_code r = 429 ->
  request_loop http (S fuel) url hdrs ps m retries w
  = request_loop http fuel url hdrs ps m (S retries)
      (w ++ round rq (backoff retries)).
Proof.
  intros Hlt Hr Hs. apply Nat.ltb_lt in Hlt. cbn [request_loop].
  rewrite Hlt. unfold bind at 1, requests_get. fold rq. rewrite Hr, Hs.
  cbn. unfold bind, sleep. rewrite <- app_assoc. reflexivity.
Qed.

Lemma request_loop_200 (fuel m retries : nat) (w : trace) (r : response) :
  (retries < m)%nat ->
  http (calls w) rq = Responds r ->
  status_code r = 200 ->
  request_loop http (S fuel) url hdrs ps m retries w
  = Val (w ++ [EGet rq]) (Some r).
Proof.
  intros Hlt Hr Hs. apply Nat.ltb_lt in Hlt. cbn [request_loop].
  rewrite Hlt. unfold bind, requests_get. fold rq. rewrite Hr, Hs.
  reflexivity.
Qed.

Lemma request_loop_other (fuel m retries : nat) (w : trace) (r : response) :
  (retries < m)%nat ->
  http (calls w) rq = Responds r ->
  status_code r <> 200 -> status_code r <> 429 ->
  request_loop http (S fuel) url hdrs ps m retries w
  = Val (w ++ [EGet rq]) None.
Proof.
  intros Hlt Hr H2 H4. apply Nat.ltb_lt in Hlt. cbn [request_loop].
  rewrite Hlt. unfold bind, requests_get. fold rq. rewrite Hr.
  apply Z.eqb_neq in H2, H4. rewrite H2, H4. reflexivity.
Qed.

Lemma request_loop_fails (fuel m retries : nat) (w : trace) :
  (retries < m)%nat ->
  http (calls w) rq = Fails ->
  request_loop http (S fuel) url hdrs ps m retries w
  = Exn (w ++ [EGet rq]) ConnectionError.
Proof.
  intros Hlt Hr. apply Nat.ltb_lt in Hlt. cbn [request_loop].
  rewrite Hlt. unfold bind, requests_get. fold rq. rewrite Hr. reflexivity.
Qed.

Lemma retry_get : retry_event rq (EGet rq).
Proof. left. reflexivity. Qed.

Lemma retry_sleep (q : Q) : retry_event rq (ESleep q).
Proof. right. exists q. reflexivity. Qed.

Lemma retry_round (wait : Z) : Forall (retry_event rq) (round rq wait).
Proof.
  unfold round. apply Forall_cons; [apply retry_get|].
  apply Forall_cons; [apply retry_sleep | apply Forall_nil].
Qed.

Lemma retry_one : Forall (retry_event rq) [EGet rq].
Proof.
  apply Forall_cons; [apply retry_get | apply Forall_nil].
Qed.

Lemma request_loop_outcome (fuel m retries : nat) (w : trace) :
  (m <= fuel + retries)%nat ->
  retry_outcome http rq w (request_loop http fuel url hdrs ps m retries w).
Proof.
  revert retries w. induction fuel as [|fuel IH]; intros retries w Hf.
  - rewrite request_loop_done by lia. exists []. rewrite app_nil_r.
    repeat split; constructor.
  - destruct (Nat.ltb_spec retries m) as [Hlt|Hge].
    2:{ rewrite request_loop_done by lia. exists []. rewrite app_nil_r.
        repeat split; constructor. }
    destruct (http (calls w) rq) as [r|] eqn:Hr.
    + destruct (Z.eq_dec (status_code r) 200) as [H2|H2].
      { rewrite (request_loop_200 _ _ _ _ r) by assumption.
        exists [EGet rq]. repeat split; [apply retry_one | assumption |].
        cbn [trace_of]. rewrite calls_get.
        replace (S (calls w) - 1)%nat with (calls w) by lia. assumption. }
      destruct (Z.eq_dec (status_code r) 429) as [H4|H4].
      { rewrite (request_loop_429 _ _ _ _ r) by assumption.
        destruct (IH (S retries) (w ++ round rq (backoff retries)))
          as (evs & Ht & Hev & Hout); [lia|].
        exists (round rq (backoff retries) ++ evs). split.
        - rewrite Ht, app_assoc. reflexivity.
        - split; [|exact Hout].
          apply Forall_app. split; [apply retry_round | assumption]. }
      rewrite (request_loop_other _ _ _ _ r) by assumption.
      exists [EGet rq]. repeat split. apply retry_one.
    + rewrite request_loop_fails by assumption.
      exists [EGet rq]. repeat split; [apply retry_one|].
      cbn [trace_of]. rewrite calls_get.
      replace (S (calls w) - 1)%nat with (calls w) by lia. assumption.
Qed.

Lemma request_loop_exhausted (k fuel m retries : nat) (w : trace) :
  (k <= fuel)%nat ->
  (retries + k = m)%nat ->
  (forall i, (i < k)%nat ->
     exists r, http (calls w + i)%nat rq = Responds r /\ status_code r = 429) ->
  request_loop http fuel url hdrs ps m retries w
  = Val (w ++ rounds rq backoff retries k) None.
Proof.
  revert fuel retries w. induction k as [|k IH]; intros fuel retries w Hf Hm H.
  - rewrite request_loop_done by lia. cbn. rewrite app_nil_r. reflexivity.
  - destruct fuel as [|fuel]; [lia|].
    destruct (H 0%nat) as (r & Hr & Hs); [lia|].
    rewrite Nat.add_0_r in Hr.
    rewrite (request_loop_429 _ _ _ _ r) by (assumption || lia).
    rewrite IH; [|lia|lia|].
    + cbn [rounds]. rewrite <- app_assoc. reflexivity.
    + intros i Hi. rewrite calls_round.
      destruct (H (S i)) as (r' & Hr' & Hs'); [lia|].
      exists r'. rewrite Nat.add_succ_r in Hr'. auto.
Qed.

Lemma request_with_retries_outcome (m : nat) (w : trace) :
  retry_outcome http rq w (request_with_retries http url hdrs ps m w).
Proof.
  apply request_loop_outcome. lia.
Qed.

End RetryGet.

(** ** Reading a page *)

Lemma dict_get_items (d : list (string * pyval)) (l : list pyval) :
  dict_get d "items" PNone = PList l -> dict_get d "items" (PList []) = PList l.
Proof.
  unfold dict_get. destruct (assoc "items" d); [auto | discriminate].
Qed.

Lemma read_page_none (token_name : string) :
  read_page token_name None = Ok Break.
Proof. reflexivity. Qed.

Lemma read_page_undecodable (token_name : string) (r : response) :
  json r = None -> read_page token_name (Some r) = Ok Break.
Proof.
  intros H. unfold read_page. rewrite H.
  destruct (no_response (Some r)); reflexivity.
Qed.

Lemma read_page_no_items (token_name : string) (r : response)
  (d : list (string * pyval)) :
  json r = Some (PDict d) -> dict_get d "items" PNone = PNone ->
  read_page token_name (Some r) = Ok Break.
Proof.
  intros H Hi. unfold read_page. rewrite H. cbn [py_get rbind]. rewrite Hi.
  destruct (no_response (Some r)); reflexivity.
Qed.

Lemma read_page_is_page (token_name : string) (r : response)
  (items : list pyval) (has_more next_cursor : pyval) (new_rows : list row) :
  is_page r items has_more next_cursor ->
  make_rows token_name items = Ok new_rows ->
  read_page token_name (Some r) = Ok (Page new_rows has_more next_cursor).
Proof.
  intros (Hs & d & Hj & Hi & Hm & Hc) Hrows. unfold read_page.
  unfold no_response, response_ok. rewrite Hs, Hj. cbn [negb andb Z.leb Z.compare].
  cbn [py_get rbind]. rewrite Hi, (dict_get_items _ _ Hi). cbn [is_None py_iter rbind].
  rewrite Hrows, Hm, Hc. reflexivity.
Qed.

Lemma falsy_or_dict_get (v : pyval) (k : string) :
  falsy_or_dict v = true ->
  exists x, (if truthy v then py_get v k PNone else Ok PNone) = Ok x.
Proof.
  intros H. destruct (truthy v) eqn:Ht; [|eauto].
  destruct v; cbn [falsy_or_dict] in H;
    try (rewrite Ht in H; discriminate).
  cbn. eauto.
Qed.

Lemma make_row_ok (token_name : string) (invoice : pyval) :
  invoice_ok invoice = true -> exists r, make_row token_name invoice = Ok r.
Proof.
  destruct invoice; try discriminate. cbn [invoice_ok].
  intros H. apply andb_prop in H. destruct H as [Hs Hm].
  unfold make_row. cbn [py_get rbind].
  destruct (falsy_or_dict_get _ "id" Hs) as (x & ->).
  destruct (falsy_or_dict_get _ "url" Hm) as (y & ->).
  cbn [rbind]. eauto.
Qed.

Lemma make_rows_ok (token_name : string) (invoices : list pyval) :
  forallb invoice_ok invoices = true ->
  exists rs, make_rows token_name invoices = Ok rs.
Proof.
  induction invoices as [|i l IH]; cbn [forallb make_rows]; [eauto|].
  intros H. apply andb_prop in H. destruct H as [Hi Hl].
  destruct (make_row_ok token_name i Hi) as (r & ->).
  destruct (IH Hl) as (rs & ->). cbn. eauto.
Qed.

Lemma read_page_ok (token_name : string) (r : response) (data : pyval) :
  json r = Some data -> page_ok data = true ->
  exists pg, read_page token_name (Some r) = Ok pg.
Proof.
  intros Hj Hp. unfold read_page. rewrite Hj.
  destruct (no_response (Some r)); [eauto|].
  destruct data; try discriminate. cbn [page_ok] in Hp.
  cbn [py_get rbind].
  destruct (dict_get d "items" PNone) eqn:Hi; cbn [is_None]; eauto;
    unfold dict_get in Hi |- *; destruct (assoc "items" d);
    try discriminate; subst; cbn [py_iter] in Hp |- *;
    try discriminate; cbn [rbind];
    destruct (make_rows_ok token_name _ Hp) as (rs & ->); cbn; eauto.
Qed.

(** ** The pagination loop *)

Section Pagination.

Variable http : http_layer.
Variables (token_name : string) (hdrs : headers).

Lemma fetch_loop_stop (fuel : nat) (rows : list row) (cursor has_more : pyval)
  (ps : params) (w : trace) :
  truthy has_more = false ->
  fetch_loop http fuel token_name hdrs rows cursor has_more ps w = Val w rows.
Proof.
  intros H. destruct fuel; cbn [fetch_loop]; rewrite H; reflexivity.
Qed.

Lemma fetch_loop_fuel (rows : list row) (cursor has_more : pyval)
  (ps : params) (w : trace) :
  truthy has_more = true ->
  fetch_loop http 0 token_name hdrs rows cursor has_more ps w = Fuel w.
Proof.
  intros H. cbn [fetch_loop]. rewrite H. reflexivity.
Qed.

(** One iteration, by what the request and the reading of the page give. *)
Lemma fetch_loop_unfold (fuel : nat) (rows : list row)
  (cursor has_more : pyval) (ps : params) (w : trace) :
  truthy has_more = true ->
  fetch_loop http (S fuel) token_name hdrs rows cursor has_more ps w
  = match request_with_retries http BASE_URL hdrs (with_cursor ps cursor) 5 w
    with
    | Val w' response =>
        match read_page token_name response with
        | Ok Break => Val w' rows
        | Ok (Page new_rows has_more' cursor') =>
            fetch_loop http fuel token_name hdrs (rows ++ new_rows)
              cursor' has_more' (with_cursor ps cursor) (w' ++ [ESleep (1 # 2)])
        | Raise e => Exn w' e
        end
    | Exn w' e => Exn w' e
    | Fuel w' => Fuel w'
    end.
Proof.
  intros H. cbn [fetch_loop]. rewrite H. unfold bind at 1.
  destruct (request_with_retries http BASE_URL hdrs (with_cursor ps cursor) 5 w)
    as [w' resp|w' e|w']; try reflexivity.
  unfold bind at 1, lift.
  destruct (read_page token_name resp) as [[|new hm c]|e]; reflexivity.
Qed.

(** An iteration whose request is answered at once by a listing page. *)
Lemma fetch_loop_page (fuel : nat) (rows : list row) (cursor has_more : pyval)
  (ps : params) (w : trace) (r : response) (items : list pyval)
  (has_more' cursor' : pyval) (new_rows : list row) :
  truthy has_more = true ->
  http (calls w) (listing_request hdrs (with_cursor ps cursor)) = Responds r ->
  is_page r items has_more' cursor' ->
  make_rows token_name items = Ok new_rows ->
  fetch_loop http (S fuel) token_name hdrs rows cursor has_more ps w
  = fetch_loop http fuel token_name hdrs (rows ++ new_rows) cursor' has_more'
      (with_cursor ps cursor)
      (w ++ [EGet (listing_request hdrs (with_cursor ps cursor));
             ESleep (1 # 2)]).
Proof.
  intros Hm Hr Hp Hrows. rewrite fetch_loop_unfold by assumption.
  unfold request_with_retries.
  rewrite (request_loop_200 http BASE_URL hdrs _ _ _ _ _ r);
    [|lia|exact Hr|apply Hp].
  rewrite (read_page_is_page _ _ _ _ _ _ Hp Hrows).
  rewrite <- app_assoc. reflexivity.
Qed.

(** An iteration whose request comes back empty-handed, or with a body
    that does not decode or has no [items], ends the loop with the rows as
    they are. *)
Lemma fetch_loop_break (fuel : nat) (rows : list row) (cursor has_more : pyval)
  (ps : params) (w w' : trace) (resp : option response) :
  truthy has_more = true ->
  request_with_retries http BASE_URL hdrs (with_cursor ps cursor) 5 w
  = Val w' resp ->
  no_page resp ->
  fetch_loop http (S fuel) token_name hdrs rows cursor has_more ps w
  = Val w' rows.
Proof.
  intros Hm Hreq Hresp. rewrite fetch_loop_unfold, Hreq by assumption.
  destruct Hresp as [->|[(r & -> & Hj)|(r & d & -> & Hj & Hi)]].
  - reflexivity.
  - rewrite read_page_undecodable by assumption. reflexivity.
  - rewrite (read_page_no_items _ _ d) by assumption. reflexivity.
Qed.

Lemma fetch_loop_never_raises (fuel : nat) :
  answers http -> well_shaped http ->
  forall rows cursor has_more ps w,
    match fetch_loop http fuel token_name hdrs rows cursor has_more ps w with
    | Exn _ _ => False
    | _ => True
    end.
Proof.
  intros Ha Hw. induction fuel as [|fuel IH]; intros rows cursor has_more ps w;
    destruct (truthy has_more) eqn:Hm;
    try (rewrite fetch_loop_stop by assumption; exact I).
  - rewrite fetch_loop_fuel by assumption. exact I.
  - rewrite fetch_loop_unfold by assumption.
    pose proof (request_with_retries_outcome http BASE_URL hdrs
                  (with_cursor ps cursor) 5 w) as (evs & _ & _ & Hout).
    destruct (request_with_retries http BASE_URL hdrs (with_cursor ps cursor) 5 w)
      as [w' [resp|]|w' e|w'].
    + destruct Hout as [Hs Hr].
      destruct (json resp) as [data|] eqn:Hj.
      * destruct (read_page_ok token_name resp data Hj (Hw _ _ _ _ Hr Hs Hj))
          as ([|new hm c] & ->); [exact I | apply IH].
      * rewrite read_page_undecodable by assumption. exact I.
    + exact I.
    + destruct Hout as [_ Hf]. exact (Ha _ _ Hf).
    + exact I.
Qed.

Lemma cursors_sent_retry (ps : params) (evs : trace) (o : option pyval)
  (l : list (option pyval)) :
  Forall (retry_event (listing_request hdrs ps)) evs ->
  (o <> None -> p_cursor ps <> None) ->
  sticky_from (p_cursor ps) l ->
  sticky_from o l ->
  sticky_from o (cursors_sent evs ++ l).
Proof.
  intros Hev. revert o. induction Hev as [|e evs He _ IH]; intros o Ho Hl Hol.
  - exact Hol.
  - destruct He as [->|(q & ->)].
    + cbn. split; [exact Ho|]. apply IH; auto.
    + cbn. apply IH; auto.
Qed.

Lemma sticky_from_weaken (o : option pyval) (ps : params)
  (l : list (option pyval)) :
  (o <> None -> p_cursor ps <> None) ->
  sticky_from (p_cursor ps) l -> sticky_from o l.
Proof.
  destruct l as [|x l]; cbn; [auto|]. intros H [H1 H2]. auto.
Qed.

Lemma with_cursor_keeps (ps : params) (cursor : pyval) :
  p_cursor ps <> None -> p_cursor (with_cursor ps cursor) <> None.
Proof.
  unfold with_cursor. destruct (truthy cursor); cbn; [discriminate | auto].
Qed.

(** Whatever the server does, the cursor parameters sent by the loop are
    sticky from the parameter the dictionary holds on entry. *)
Lemma fetch_loop_sticky (fuel : nat) :
  forall rows cursor has_more ps w,
  exists evs,
    trace_of (fetch_loop http fuel token_name hdrs rows cursor has_more ps w)
    = w ++ evs
    /\ sticky_from (p_cursor ps) (cursors_sent evs).
Proof.
  induction fuel as [|fuel IH]; intros rows cursor has_more ps w;
    destruct (truthy has_more) eqn:Hm;
    try (rewrite fetch_loop_stop by assumption; exists [];
         rewrite app_nil_r; split; [reflexivity | exact I]).
  - rewrite fetch_loop_fuel by assumption. exists [].
    rewrite app_nil_r. split; [reflexivity | exact I].
  - rewrite fetch_loop_unfold by assumption.
    pose proof (request_with_retries_outcome http BASE_URL hdrs
                  (with_cursor ps cursor) 5 w) as (evs & Ht & Hev & _).
    pose proof (with_cursor_keeps ps cursor) as Hk.
    assert (Hstop : sticky_from (p_cursor ps) (cursors_sent evs)).
    { rewrite <- (app_nil_r (cursors_sent evs)).
      apply (cursors_sent_retry (with_cursor ps cursor)); auto; exact I. }
    destruct (request_with_retries http BASE_URL hdrs (with_cursor ps cursor) 5 w)
      as [w' resp|w' e|w']; cbn [trace_of] in Ht; subst w';
      try (exists evs; split; [reflexivity | exact Hstop]).
    destruct (read_page token_name resp) as [[|new hm c]|e];
      try (exists evs; split; [reflexivity | exact Hstop]).
    destruct (IH (rows ++ new) c hm (with_cursor ps cursor)
                 ((w ++ evs) ++ [ESleep (1 # 2)])) as (evs' & Ht' & Hs').
    exists (evs ++ ESleep (1 # 2) :: evs'). split.
    + rewrite Ht'. rewrite <- !app_assoc. reflexivity.
    + rewrite cursors_sent_app. change (cursors_sent (ESleep (1 # 2) :: evs'))
        with (cursors_sent evs').
      apply (cursors_sent_retry (with_cursor ps cursor)); auto.
      apply (sticky_from_weaken _ (with_cursor ps cursor)); auto.
Qed.

Lemma sticky_present (c : pyval) (l : list (option pyval)) :
  sticky_from (Some c) l -> Forall (fun x => x <> None) l.
Proof.
  revert c. induction l as [|x l IH]; intros c; cbn; [constructor|].
  intros [Hx Hl]. assert (Hne : x <> None) by (apply Hx; discriminate).
  constructor; [exact Hne|]. destruct x as [c'|]; [eauto | congruence].
Qed.

Lemma sticky_split (o : option pyval) (l1 l2 : list (option pyval))
  (c : pyval) :
  sticky_from o (l1 ++ Some c :: l2) -> Forall (fun x => x <> None) l2.
Proof.
  revert o. induction l1 as [|x l1 IH]; intros o; cbn.
  - intros [_ H]. eapply sticky_present; eauto.
  - intros [_ H]. eauto.
Qed.

End Pagination.

Section FirstRequest.

Variable http : http_layer.
Variables (token_name : string) (hdrs : headers).

(** A retry loop that is allowed an attempt starts with its request. *)
Lemma request_with_retries_first (url : string) (ps : params) (m : nat)
  (w : trace) :
  (0 < m)%nat ->
  exists rest,
    trace_of (request_with_retries http url hdrs ps m w)
    = w ++ EGet {| req_url := url; req_headers := hdrs;
                   req_params := Some ps |} :: rest.
Proof.
  intros Hm. unfold request_with_retries.
  destruct m as [|m]; [lia|].
  set (rq := {| req_url := url; req_headers := hdrs; req_params := Some ps |}).
  destruct (http (calls w) rq) as [r|] eqn:Hr.
  - destruct (Z.eq_dec (status_code r) 200) as [H2|H2].
    { rewrite (request_loop_200 http url hdrs ps _ _ _ _ r) by (lia || auto).
      exists []. reflexivity. }
    destruct (Z.eq_dec (status_code r) 429) as [H4|H4].
    { rewrite (request_loop_429 http url hdrs ps _ _ _ _ r) by (lia || auto).
      destruct (request_loop_outcome http url hdrs ps m (S m) 1
                  (w ++ round rq (backoff 0))) as (evs & Ht & _); [lia|].
      fold rq. rewrite Ht. unfold round. rewrite <- app_assoc.
      eexists. reflexivity. }
    rewrite (request_loop_other http url hdrs ps _ _ _ _ r) by (lia || auto).
    exists []. reflexivity.
  - rewrite request_loop_fails by (lia || auto). exists []. reflexivity.
Qed.

(** So does an iteration of the page loop, with the parameters as the
    dictionary holds them after lines 58-59. *)
Lemma fetch_loop_first_request (fuel : nat) (rows : list row)
  (cursor has_more : pyval) (ps : params) (w : trace) :
  truthy has_more = true ->
  exists rest,
    trace_of (fetch_loop http (S fuel) token_name hdrs rows cursor has_more
                ps w)
    = w ++ EGet (listing_request hdrs (with_cursor ps cursor)) :: rest.
Proof.
  intros Hm. rewrite fetch_loop_unfold by assumption.
  destruct (request_with_retries_first BASE_URL (with_cursor ps cursor) 5 w)
    as (rest & Ht); [lia|].
  fold (listing_request hdrs (with_cursor ps cursor)) in Ht.
  destruct (request_with_retries http BASE_URL hdrs (with_cursor ps cursor) 5 w)
    as [w' resp|w' e|w']; cbn [trace_of] in Ht; subst w';
    try (exists rest; reflexivity).
  destruct (read_page token_name resp) as [[|new hm c]|e];
    try (exists rest; reflexivity).
  destruct (fetch_loop_sticky http token_name hdrs fuel (rows ++ new) c hm
              (with_cursor ps cursor)
              ((w ++ EGet (listing_request hdrs (with_cursor ps cursor)) :: rest)
               ++ [ESleep (1 # 2)])) as (evs & Hev & _).
  rewrite Hev. exists (rest ++ ESleep (1 # 2) :: evs).
  rewrite <- !app_assoc. reflexivity.
Qed.

End FirstRequest.

(** ** Exhausted retries on the listing endpoint *)

(** C6. With the attempt cap at 5, five 429 answers in a row make the
    retry primitive give up with no result, after waits of 1, 2, 4, 8 and
    16 seconds; the page loop then stops and returns the rows it held when
    the iteration began, unchanged. *)
Theorem rate_limited_page_keeps_rows (http : http_layer)
  (token_name : string) (hdrs : headers) (rows : list row)
  (cursor has_more : pyval) (ps : params) (fuel : nat) (w : trace) :
  truthy has_more = true ->
  (forall i, (i < 5)%nat ->
     exists r, http (calls w + i)%nat
                 (listing_request hdrs (with_cursor ps cursor)) = Responds r
               /\ status_code r = 429) ->
  let rq := listing_request hdrs (with_cursor ps cursor) in
  let waited := [EGet rq; ESleep 1; EGet rq; ESleep 2; EGet rq; ESleep 4;
                 EGet rq; ESleep 8; EGet rq; ESleep 16] in
  request_with_retries http BASE_URL hdrs (with_cursor ps cursor) 5 w
  = Val (w ++ waited) None
  /\ fetch_loop http (S fuel) token_name hdrs rows cursor has_more ps w
     = Val (w ++ waited) rows.
Proof.
  intros Hm H rq waited.
  assert (Hreq : request_with_retries http BASE_URL hdrs
                   (with_cursor ps cursor) 5 w = Val (w ++ waited) None).
  { unfold request_with_retries.
    rewrite (request_loop_exhausted http BASE_URL hdrs _ 5); auto. }
  split; [exact Hreq|].
  apply (fetch_loop_break http token_name hdrs fuel rows cursor has_more ps w
           (w ++ waited) None); auto.
  left. reflexivity.
Qed.

Lemma rate_limited_page_keeps_rows_witness :
  let rows := [invoice_row "acme" 120 true "validated" PNone] in
  let rq := listing_request (bearer "t") (set_cursor first_params (PStr "C1")) in
  fetch_loop (always (status_only 429)) 1 "acme" (bearer "t") rows
    (PStr "C1") (PBool true) first_params []
  = Val [EGet rq; ESleep 1; EGet rq; ESleep 2; EGet rq; ESleep 4;
         EGet rq; ESleep 8; EGet rq; ESleep 16] rows.
Proof.
  intros rows rq.
  apply (rate_limited_page_keeps_rows (always (status_only 429)) "acme"
           (bearer "t") rows (PStr "C1") (PBool true) first_params 0 []).
  - reflexivity.
  - intros i _. exists (status_only 429). split; reflexivity.
Defined.

(** ** Three pages *)



(** ** Exceptions out of the listing fetchers *)

(** C2, as stated, fails. When the network fails, [requests.get] raises,
    and neither the retry primitive nor the page loop has a handler: the
    exception leaves both. So does the [AttributeError] of a 200 response
    whose body decodes to something other than an object. *)
Lemma listing_exceptions_escape :
  request_with_retries unreachable BASE_URL (bearer "t") first_params 5 []
  = Exn [EGet (listing_request (bearer "t") first_params)] ConnectionError
  /\ fetch_invoices_for_token unreachable 1 "acme" "t" []
     = Exn [EGet (listing_request (bearer "t") first_params)] ConnectionError
  /\ fetch_invoices_for_token (always (body (PList []))) 1 "acme" "t" []
     = Exn [EGet (listing_request (bearer "t") first_params)] AttributeError.
Proof.
  repeat split; reflexivity.
Qed.

(** C2, amended. As long as the HTTP layer answers every request, the
    retry primitive never raises: it returns a 200 response or no result.
    When moreover every decodable 200 body has the listing's shape, the
    page fetcher never raises either; and whenever the retry primitive
    comes back with no result, or with a body that does not decode or has
    no [items], the page loop returns the rows accumulated so far. *)
Theorem listing_failures_degrade (http : http_layer) :
  answers http ->
  (forall url hdrs ps max_retries w,
     exists w' r,
       request_with_retries http url hdrs ps max_retries w = Val w' r
       /\ match r with
          | Some resp => status_code resp = 200
          | None => True
          end)
  /\ (well_shaped http ->
      forall fuel token_name token_value w,
        match fetch_invoices_for_token http fuel token_name token_value w with
        | Exn _ _ => False
        | _ => True
        end)
  /\ (forall fuel token_name hdrs rows cursor has_more ps w w' resp,
        truthy has_more = true ->
        request_with_retries http BASE_URL hdrs (with_cursor ps cursor) 5 w
        = Val w' resp ->
        no_page resp ->
        fetch_loop http (S fuel) token_name hdrs rows cursor has_more ps w
        = Val w' rows).
Proof.
  intros Ha. split; [|split].
  - intros url hdrs ps m w.
    pose proof (request_with_retries_outcome http url hdrs ps m w)
      as (evs & _ & _ & Hout).
    destruct (request_with_retries http url hdrs ps m w)
      as [w' [resp|]|w' e|w'].
    + exists w', (Some resp). split; [reflexivity | apply Hout].
    + exists w', None. split; [reflexivity | exact I].
    + destruct Hout as [_ Hf]. destruct (Ha _ _ Hf).
    + destruct Hout.
  - intros Hw fuel token_name token_value w.
    apply fetch_loop_never_raises; assumption.
  - intros fuel token_name hdrs rows cursor has_more ps w w' resp.
    apply fetch_loop_break.
Qed.

Lemma listing_failures_degrade_witness :
  let http := served [listing_page sample_items true PNone; status_only 500] in
  answers http
  /\ well_shaped http
  /\ fetch_invoices_for_token http 5 "acme" "t" []
     = Val [EGet (listing_request (bearer "t") first_params); ESleep (1 # 2);
            EGet (listing_request (bearer "t") first_params)]
           [invoice_row "acme" 120 true "validated" (PStr sample_url);
            invoice_row "acme" 80 false "validated" (PStr sample_url);
            invoice_row "acme" 45 true "archived" (PStr sample_url);
            invoice_row "acme" 30 true "validated" (PStr EmptyString)]
  /\ match fetch_invoices_for_token http 5 "acme" "t" [] with
     | Exn _ _ => False
     | _ => True
     end.
Proof.
  intros http.
  assert (Ha : answers http) by (intros n rq; discriminate).
  assert (Hw : well_shaped http).
  { intros n rq r data Hr Hs Hj. injection Hr as <-.
    destruct n as [|[|[|n]]]; cbn in Hs, Hj; try discriminate.
    injection Hj as <-. reflexivity. }
  split; [exact Ha|]. split; [exact Hw|]. split; [reflexivity|].
  destruct (listing_failures_degrade http Ha) as (_ & Hnever & _).
  exact (Hnever Hw 5%nat "acme" "t" []).
Defined.

(** ** The cursor parameter *)

(** C10. In the requests of one credential's pagination, once a request
    has carried a cursor parameter every later request carries one. And
    when the page answering a request that carried the cursor [c] reports
    more pages but a null, missing or otherwise empty [next_cursor], the
    next request carries [c] again: the key is never removed. *)
Theorem cursor_parameter_sticks (http : http_layer)
  (token_name : string) :
  (forall fuel token_value l1 c l2,
     cursors_sent
       (trace_of (fetch_invoices_for_token http fuel token_name token_value []))
     = l1 ++ Some c :: l2 ->
     Forall (fun sent => sent <> None) l2)
  /\ (forall fuel hdrs rows c has_more ps w r items has_more' next_cursor
             new_rows,
        truthy has_more = true -> truthy c = true ->
        http (calls w) (listing_request hdrs (set_cursor ps c)) = Responds r ->
        is_page r items has_more' next_cursor ->
        make_rows token_name items = Ok new_rows ->
        truthy has_more' = true -> truthy next_cursor = false ->
        exists rest,
          trace_of (fetch_loop http (S (S fuel)) token_name hdrs rows c
                      has_more ps w)
          = w ++ [EGet (listing_request hdrs (set_cursor ps c));
                  ESleep (1 # 2);
                  EGet (listing_request hdrs (set_cursor ps c))] ++ rest).
Proof.
  split.
  - intros fuel token_value l1 c l2 H.
    unfold fetch_invoices_for_token in H.
    destruct (fetch_loop_sticky http token_name (bearer token_value) fuel []
                PNone (PBool true)
                {| p_filter := filters; p_cursor := None |} [])
      as (evs & Ht & Hs).
    rewrite Ht in H. cbn [app] in H. rewrite H in Hs.
    eapply sticky_split; eauto.
  - intros fuel hdrs rows c has_more ps w r items hm nc new Hm Hc Hr Hp Hrows
      Hm' Hnc.
    assert (Hwc : with_cursor ps c = set_cursor ps c)
      by (unfold with_cursor; rewrite Hc; reflexivity).
    rewrite (fetch_loop_page http token_name hdrs _ _ _ _ _ _ r items hm nc new);
      [|assumption|rewrite Hwc; assumption|assumption|assumption].
    rewrite Hwc.
    destruct (fetch_loop_first_request http token_name hdrs fuel (rows ++ new)
                nc hm (set_cursor ps c)
                (w ++ [EGet (listing_request hdrs (set_cursor ps c));
                       ESleep (1 # 2)]) Hm') as (rest & Ht).
    assert (Hwc' : with_cursor (set_cursor ps c) nc = set_cursor ps c)
      by (unfold with_cursor; rewrite Hnc; reflexivity).
    rewrite Hwc' in Ht. exists rest. rewrite Ht, <- app_assoc. reflexivity.
Qed.

Lemma cursor_parameter_sticks_witness :
  let pages := [listing_page [] true (PStr "C1");
                listing_page [] true PNone;
                listing_page [] false PNone] in
  let rq := listing_request (bearer "t") (set_cursor first_params (PStr "C1")) in
  cursors_sent (trace_of (fetch_invoices_for_token (served pages) 3 "acme" "t" []))
  = [None] ++ Some (PStr "C1") :: [Some (PStr "C1")]
  /\ Forall (fun sent => sent <> None) [Some (PStr "C1")]
  /\ exists rest,
       trace_of (fetch_loop (served pages) 2 "acme" (bearer "t") []
                   (PStr "C1") (PBool true) first_params
                   [EGet (listing_request (bearer "t") first_params);
                    ESleep (1 # 2)])
       = [EGet (listing_request (bearer "t") first_params); ESleep (1 # 2)]
         ++ [EGet rq; ESleep (1 # 2); EGet rq] ++ rest.
Proof.
  intros pages rq.
  destruct (cursor_parameter_sticks (served pages) "acme") as [Hsticky Hstep].
  split; [reflexivity|]. split.
  - apply (Hsticky 3%nat "t" [None] (PStr "C1") [Some (PStr "C1")]).
    reflexivity.
  - apply (Hstep 0%nat (bearer "t") [] (PStr "C1") (PBool true) first_params
             [EGet (listing_request (bearer "t") first_params); ESleep (1 # 2)]
             (nth 1 pages (status_only 404)) [] (PBool true) PNone []);
      try reflexivity.
    split; [reflexivity | eexists; repeat split; reflexivity].
Defined.

(** ** The transaction retry loop *)

Lemma transient_not_200 (r : response) :
  transient r = true -> (status_code r =? 200) = false.
Proof.
  unfold transient. intros H. destruct (Z.eqb_spec (status_code r) 200) as [E|E];
    [|reflexivity].
  rewrite E in H. discriminate.
Qed.

(** On a 429 or 5xx answer an attempt waits [2 ** retries] seconds and
    falls through to the loop test. *)
Lemma transaction_attempt_transient (http : http_layer) (url : string)
  (hdrs : headers) (retries : nat) (w : trace) (r : response) :
  http (calls w) (transaction_request url hdrs) = Responds r ->
  transient r = true ->
  transaction_attempt http url hdrs retries w
  = Val (w ++ round (transaction_request url hdrs) (2 ^ Z.of_nat retries)) None.
Proof.
  intros Hr Ht. unfold transaction_attempt, bind at 1, requests_get.
  fold (transaction_request url hdrs). rewrite Hr.
  rewrite (transient_not_200 r Ht). unfold transient in Ht.
  destruct (status_code r =? 429).
  - unfold bind, sleep, ret. rewrite <- app_assoc. reflexivity.
  - cbn [orb] in Ht. rewrite Ht.
    unfold bind, sleep, ret. rewrite <- app_assoc. reflexivity.
Qed.

(** C1, as the code has it. Against a server that keeps answering 429 or
    5xx the loop of the transaction fetcher does not stop at five
    attempts, nor at any number: [retries] stays at 0, every wait lasts
    [2 ** 0 = 1] second, and however much fuel the loop is given it spends
    all of it on requests without returning. *)
Theorem transaction_fetch_never_gives_up (http : http_layer) (url : string)
  (hdrs : headers) (max_retries fuel : nat) (w : trace) :
  (0 < max_retries)%nat ->
  (forall n, exists r,
      http n (transaction_request url hdrs) = Responds r
      /\ transient r = true) ->
  fetch_transaction_date_with_retries http fuel url hdrs max_retries w
  = Fuel (w ++ rounds (transaction_request url hdrs) (fun _ => 1) 0 fuel)
  /\ calls (rounds (transaction_request url hdrs) (fun _ => 1) 0 fuel) = fuel.
Proof.
  intros Hm H. unfold fetch_transaction_date_with_retries.
  apply Nat.ltb_lt in Hm. split.
  - generalize 0%nat at 2 as first.
    revert w. induction fuel as [|fuel IH]; intros w first.
    + cbn [transaction_loop rounds]. rewrite Hm, app_nil_r. reflexivity.
    + cbn [transaction_loop rounds]. rewrite Hm.
      destruct (H (calls w)) as (r & Hr & Ht).
      unfold bind at 1, try_except.
      rewrite (transaction_attempt_transient http url hdrs 0 w r Hr Ht).
      rewrite IH with (first := S first). rewrite <- app_assoc. reflexivity.
  - generalize 0%nat as first. induction fuel as [|fuel IH]; intros first.
    + reflexivity.
    + cbn [rounds]. rewrite calls_app, IH. reflexivity.
Qed.

Lemma transaction_fetch_never_gives_up_witness :
  let rq := transaction_request "https://app.pennylane.com/t/1" (bearer "t") in
  fetch_transaction_date_with_retries (always (status_only 429)) 7
    "https://app.pennylane.com/t/1" (bearer "t") 5 []
  = Fuel [EGet rq; ESleep 1; EGet rq; ESleep 1; EGet rq; ESleep 1;
          EGet rq; ESleep 1; EGet rq; ESleep 1; EGet rq; ESleep 1;
          EGet rq; ESleep 1].
Proof.
  intros rq.
  apply (transaction_fetch_never_gives_up (always (status_only 429))
           "https://app.pennylane.com/t/1" (bearer "t") 5 7 []).
  - apply Nat.lt_0_succ.
  - intros n. exists (status_only 429). split; reflexivity.
Defined.

(** ** The amount of a row *)

Lemma tuple_is_not_its_element (v : pyval) : PTuple [v] <> v.
Proof.
  intros H. apply (f_equal depth) in H. cbn in H. lia.
Qed.

(** C8. The [amount] of the row built from an invoice item is the
    one-element tuple around the item's raw amount, never the raw value
    itself; an item without an amount gives the tuple around null. Every
    well-formed item gets such a row, every row that is built is such a
    row, the same holds item by item for the rows of a whole page, and
    these are the rows the fetcher returns for a page it reads. *)
Theorem amount_is_a_one_tuple (token_name : string) :
  (forall d,
     invoice_ok (PDict d) = true ->
     exists r, make_row token_name (PDict d) = Ok r
       /\ amount r = PTuple [dict_get d "amount" PNone]
       /\ amount r <> dict_get d "amount" PNone
       /\ (assoc "amount" d = None -> amount r = PTuple [PNone]))
  /\ (forall invoice r,
        make_row token_name invoice = Ok r ->
        exists d, invoice = PDict d
          /\ amount r = PTuple [dict_get d "amount" PNone]
          /\ amount r <> dict_get d "amount" PNone
          /\ (assoc "amount" d = None -> amount r = PTuple [PNone]))
  /\ (forall invoices,
        forallb invoice_ok invoices = true ->
        exists rs, make_rows token_name invoices = Ok rs
          /\ Forall2 (fun invoice r =>
                        exists d, invoice = PDict d
                          /\ amount r = PTuple [dict_get d "amount" PNone])
                     invoices rs)
  /\ (forall invoices rs,
        make_rows token_name invoices = Ok rs ->
        Forall2 (fun invoice r =>
                   exists d, invoice = PDict d
                     /\ amount r = PTuple [dict_get d "amount" PNone])
                invoices rs)
  /\ (forall http fuel hdrs rows cursor has_more ps w r items has_more'
             cursor',
        truthy has_more = true ->
        http (calls w) (listing_request hdrs (with_cursor ps cursor))
        = Responds r ->
        is_page r items has_more' cursor' ->
        truthy has_more' = false ->
        forallb invoice_ok items = true ->
        exists new_rows,
          fetch_loop http (S fuel) token_name hdrs rows cursor has_more ps w
          = Val (w ++ [EGet (listing_request hdrs (with_cursor ps cursor));
                       ESleep (1 # 2)])
                (rows ++ new_rows)
          /\ Forall2 (fun invoice r =>
                        exists d, invoice = PDict d
                          /\ amount r = PTuple [dict_get d "amount" PNone])
                     items new_rows).
Proof.
  assert (Hrow : forall invoice r,
             make_row token_name invoice = Ok r ->
             exists d, invoice = PDict d
               /\ amount r = PTuple [dict_get d "amount" PNone]).
  { intros invoice r H. destruct invoice; try discriminate.
    exists d. split; [reflexivity|].
    unfold make_row in H. cbn [py_get rbind] in H.
    destruct (if truthy (dict_get d "supplier" PNone)
              then py_get (dict_get d "supplier" PNone) "id" PNone
              else Ok PNone); [|discriminate].
    destruct (if truthy (dict_get d "matched_transactions" PNone)
              then py_get (dict_get d "matched_transactions" PNone) "url" PNone
              else Ok PNone); [|discriminate].
    cbn [rbind] in H. injection H as <-. reflexivity. }
  assert (Hbuilt : forall invoice r,
             make_row token_name invoice = Ok r ->
             exists d, invoice = PDict d
               /\ amount r = PTuple [dict_get d "amount" PNone]
               /\ amount r <> dict_get d "amount" PNone
               /\ (assoc "amount" d = None -> amount r = PTuple [PNone])).
  { intros invoice r H. destruct (Hrow invoice r H) as (d & -> & Ha).
    exists d. repeat split; [exact Ha | |].
    - rewrite Ha. apply tuple_is_not_its_element.
    - intros Hn. rewrite Ha. unfold dict_get. rewrite Hn. reflexivity. }
  assert (Hrows : forall invoices rs,
             make_rows token_name invoices = Ok rs ->
             Forall2 (fun invoice r =>
                        exists d, invoice = PDict d
                          /\ amount r = PTuple [dict_get d "amount" PNone])
                     invoices rs).
  { induction invoices as [|i l IH]; intros rs H.
    - injection H as <-. constructor.
    - cbn [make_rows] in H.
      destruct (make_row token_name i) as [r|] eqn:Hr; [|discriminate].
      destruct (make_rows token_name l) as [rs'|]; [|discriminate].
      cbn [rbind] in H. injection H as <-.
      constructor; [apply Hrow; assumption | apply IH; reflexivity]. }
  split; [|split; [exact Hbuilt|split; [|split; [exact Hrows|]]]].
  - intros d Hok. destruct (make_row_ok token_name (PDict d) Hok) as (r & Hr).
    exists r. split; [exact Hr|].
    destruct (Hbuilt _ _ Hr) as (d' & [= <-] & H). exact H.
  - intros invoices Hok.
    destruct (make_rows_ok token_name invoices Hok) as (rs & Hrs).
    exists rs. split; [exact Hrs | apply Hrows; exact Hrs].
  - intros http fuel hdrs rows cursor has_more ps w r items hm c Hm Hr Hp
      Hlast Hok.
    destruct (make_rows_ok token_name items Hok) as (new & Hnew).
    exists new. split; [|apply Hrows; exact Hnew].
    rewrite (fetch_loop_page http token_name hdrs _ _ _ _ _ _ r items hm c new)
      by assumption.
    apply fetch_loop_stop. exact Hlast.
Qed.

Lemma amount_is_a_one_tuple_witness :
  let priced := invoice 120 true "validated" PNone in
  let unpriced := PDict [("date", PStr "2025-02-01")] in
  (exists r, make_row "acme" priced = Ok r
     /\ amount r = PTuple [PInt 120]
     /\ amount r <> PInt 120)
  /\ (exists rs, make_rows "acme" [priced; unpriced] = Ok rs
        /\ map amount rs = [PTuple [PInt 120]; PTuple [PNone]])
  /\ exists new_rows,
       fetch_invoices_for_token
         (always (listing_page [priced; unpriced] false PNone)) 1 "acme" "t" []
       = Val [EGet (listing_request (bearer "t") first_params); ESleep (1 # 2)]
             new_rows
       /\ map amount new_rows = [PTuple [PInt 120]; PTuple [PNone]].
Proof.
  intros priced unpriced.
  destruct (amount_is_a_one_tuple "acme") as (Hok & _ & Hpage & _ & Hfetch).
  split; [|split].
  - destruct (Hok [("amount", PInt 120); ("date", PStr "2025-02-01");
                   ("reconciled", PBool true);
                   ("accounting_status", PStr "validated");
                   ("supplier", PDict [("id", PInt 7)]);
                   ("matched_transactions", PDict [("url", PNone)])] eq_refl)
      as (r & Hr & Ha & Hne & _).
    exists r. split; [exact Hr | split; [exact Ha | exact Hne]].
  - destruct (Hpage [priced; unpriced] eq_refl) as (rs & Hrs & _).
    exists rs. split; [exact Hrs|].
    injection Hrs as <-. reflexivity.
  - destruct (Hfetch (always (listing_page [priced; unpriced] false PNone))
                0%nat (bearer "t") [] PNone (PBool true) first_params []
                (listing_page [priced; unpriced] false PNone)
                [priced; unpriced] (PBool false) PNone
                eq_refl eq_refl
                (conj eq_refl
                   (ex_intro _ [("items", PList [priced; unpriced]);
                                ("has_more", PBool false);
                                ("next_cursor", PNone)]
                      (conj eq_refl (conj eq_refl (conj eq_refl eq_refl)))))
                eq_refl eq_refl) as (new & Hnew & _).
    exists new. split; [exact Hnew|].
    injection Hnew as <-. reflexivity.
Defined.

(** ** Quiet computations *)

Lemma quiet_ret {A} (a : A) : quiet (ret a).
Proof. intros w. reflexivity. Qed.

Lemma quiet_out_of_fuel {A} : quiet (@out_of_fuel A).
Proof. intros w. reflexivity. Qed.

Lemma quiet_lift {A} (r : result A) : quiet (lift r).
Proof. intros w. destruct r; reflexivity. Qed.

Lemma quiet_sleep (q : Q) : quiet (sleep q).
Proof.
  intros w. unfold sleep. cbn [trace_of]. rewrite loaded_app. cbn.
  apply app_nil_r.
Qed.

Lemma quiet_requests_get (http : http_layer) (url : string) (hdrs : headers)
  (ps : option params) : quiet (requests_get http url hdrs ps).
Proof.
  intros w. unfold requests_get.
  destruct (http (calls w) _); cbn [trace_of]; rewrite loaded_app; cbn;
    apply app_nil_r.
Qed.

Lemma quiet_bind {A B} (c : M A) (k : A -> M B) :
  quiet c -> (forall a, quiet (k a)) -> quiet (bind c k).
Proof.
  intros Hc Hk w. unfold bind. specialize (Hc w).
  destruct (c w) as [w' a|w' e|w']; cbn [trace_of] in Hc |- *;
    [rewrite Hk|..]; exact Hc.
Qed.

Lemma quiet_try_except {A} (c : M A) (h : exn -> M A) :
  quiet c -> (forall e, quiet (h e)) -> quiet (try_except c h).
Proof.
  intros Hc Hh w. unfold try_except. specialize (Hc w).
  destruct (c w) as [w' a|w' e|w']; cbn [trace_of] in Hc |- *;
    [|rewrite Hh|]; exact Hc.
Qed.

Create HintDb quiet.
#[local] Hint Resolve quiet_ret quiet_out_of_fuel quiet_lift quiet_sleep
  quiet_requests_get : quiet.

Ltac quiet_step :=
  first [ apply quiet_bind; [|intros ?]
        | apply quiet_try_except; [|intros ?]
        | solve [auto with quiet] ].

Lemma quiet_transaction_attempt (http : http_layer) (url : string)
  (hdrs : headers) (retries : nat) :
  quiet (transaction_attempt http url hdrs retries).
Proof.
  unfold transaction_attempt. quiet_step; [quiet_step|].
  destruct (status_code a =? 200).
  - destruct (json a); repeat quiet_step.
  - destruct (status_code a =? 429); [repeat quiet_step|].
    destruct ((500 <=? status_code a) && (status_code a <? 600));
      repeat quiet_step.
Qed.

Lemma quiet_transaction_loop (http : http_layer) (fuel : nat) (url : string)
  (hdrs : headers) (max_retries retries : nat) :
  quiet (transaction_loop http fuel url hdrs max_retries retries).
Proof.
  induction fuel as [|fuel IH]; cbn [transaction_loop];
    destruct (retries <? max_retries)%nat; auto with quiet.
  quiet_step.
  - quiet_step; [apply quiet_transaction_attempt | auto with quiet].
  - destruct a; auto with quiet.
Qed.

Section ScriptFacts.

Variable empty_array_truth : result bool.
Variable tokens : list (string * string).
Variable listing : string -> http_layer.
Variable transactions : http_layer.

Lemma quiet_transaction_date_of (fuel : nat) (r : row) :
  quiet (transaction_date_of empty_array_truth tokens transactions fuel r).
Proof.
  unfold transaction_date_of. quiet_step; [quiet_step|].
  destruct a; [auto with quiet|].
  destruct (no_token _); [auto with quiet|].
  destruct (tokens_get _ _); [|auto with quiet].
  destruct (matching_transaction r); auto with quiet.
  apply quiet_transaction_loop.
Qed.

Lemma quiet_enrich (fuel : nat) (rs : list row) :
  quiet (enrich empty_array_truth tokens transactions fuel rs).
Proof.
  induction rs as [|r rs IH]; cbn [enrich]; [auto with quiet|].
  quiet_step; [apply quiet_transaction_date_of|].
  quiet_step; [exact IH | auto with quiet].
Qed.

(** Collecting the finished tasks adds nothing to the main thread's trace. *)
Lemma gather_trace (done : list (run (list row))) (all_rows : list row)
  (w : trace) : trace_of (gather done all_rows w) = w.
Proof.
  revert all_rows. induction done as [|[w' rows|w' e|w'] done IH];
    intros all_rows; cbn [gather]; auto.
Qed.

Lemma select_keep (rs : list row) :
  select rs (mask_and (map eq_True (map (cell "reconciled") rs))
               (map (fun v => ne_str v "archived")
                    (map (cell "accounting_status") rs)))
  = filter keep rs.
Proof.
  induction rs as [|r rs IH]; [reflexivity|].
  cbn [map mask_and select filter]. rewrite IH. reflexivity.
Qed.

(** On a frame with at least one row the mask of line 157 is [keep]. *)
Lemma filter_frame_keep (all_rows : list row) :
  all_rows <> [] ->
  filter_frame (pd_DataFrame all_rows)
  = Ok {| columns := row_columns; records := filter keep all_rows |}.
Proof.
  intros H. destruct all_rows as [|r rs]; [congruence|].
  unfold filter_frame, column, pd_DataFrame.
  cbn [is_empty columns records]. 
  change (existsb (String.eqb "reconciled") row_columns) with true.
  change (existsb (String.eqb "accounting_status") row_columns) with true.
  cbn [rbind]. rewrite select_keep. reflexivity.
Qed.

Lemma filter_frame_empty :
  filter_frame (pd_DataFrame []) = Raise (KeyError "reconciled").
Proof. reflexivity. Qed.

Lemma attach_base (rs : list row) (dates : list pyval) (e : enriched) :
  In e (attach rs dates) -> In (base e) rs.
Proof.
  revert dates. induction rs as [|r rs IH]; intros [|d dates]; cbn;
    try contradiction.
  intros [<-|H]; [left; reflexivity | right; eauto].
Qed.

(** What the script can hand to the load stage: nothing, or once the
    frame of the kept rows with their dates, less the rows without one. *)
Lemma script_loaded (fuel : nat) (completed : list (string * string))
  (final : list enriched) :
  In final (loaded (trace_of (script empty_array_truth tokens listing
                                transactions fuel completed []))) ->
  exists all_rows dates,
    final = dropna (attach (filter keep all_rows) dates).
Proof.
  unfold script, bind at 1.
  pose proof (gather_trace (map (task listing fuel) completed) [] []) as Hg.
  destruct (gather (map (task listing fuel) completed) [] [])
    as [w all_rows|w e|w]; cbn [trace_of] in Hg; subst w;
    try (cbn; contradiction).
  unfold bind at 1, lift.
  destruct all_rows as [|r rs]; [cbn; contradiction|].
  rewrite filter_frame_keep by discriminate.
  cbn [records]. unfold bind at 1.
  pose proof (quiet_enrich fuel (filter keep (r :: rs)) []) as Hq.
  destruct (enrich empty_array_truth tokens transactions fuel
              (filter keep (r :: rs)) []) as [w dates|w e|w];
    cbn [trace_of] in Hq |- *; try (rewrite Hq; cbn; contradiction).
  unfold to_gbq. cbn [trace_of]. rewrite loaded_app, Hq. cbn.
  intros [<-|[]]. exists (r :: rs), dates. reflexivity.
Qed.

End ScriptFacts.

(** ** The filter and the final frame *)

Lemma dropna_has_date (df : list enriched) (e : enriched) :
  In e (dropna df) -> In e df /\ isna_scalar (transaction_date e) = false.
Proof.
  unfold dropna. intros H. apply filter_In in H. destruct H as [Hin Hna].
  split; [exact Hin|]. apply negb_true_iff in Hna. exact Hna.
Qed.

(** C4. The mask of line 157 keeps exactly the rows whose [reconciled]
    equals [True] and whose [accounting_status] differs from ["archived"];
    and no row with [reconciled] false or [accounting_status] archived is
    in a frame the script hands to the load stage. *)
Theorem filtered_rows_are_not_loaded (empty_array_truth : result bool)
  (tokens : list (string * string)) (listing : string -> http_layer)
  (transactions : http_layer) (fuel : nat)
  (completed : list (string * string)) :
  (forall all_rows, all_rows <> [] ->
     filter_frame (pd_DataFrame all_rows)
     = Ok {| columns := row_columns; records := filter keep all_rows |})
  /\ (forall final e,
        In final (loaded (trace_of (script empty_array_truth tokens listing
                                      transactions fuel completed []))) ->
        In e final ->
        eq_True (reconciled (base e)) = true
        /\ ne_str (accounting_status (base e)) "archived" = true
        /\ reconciled (base e) <> PBool false
        /\ accounting_status (base e) <> PStr "archived").
Proof.
  split; [apply filter_frame_keep|].
  intros final e Hf He.
  destruct (script_loaded _ _ _ _ _ _ _ Hf) as (all_rows & dates & ->).
  apply dropna_has_date in He. destruct He as [He _].
  apply attach_base in He. apply filter_In in He. destruct He as [_ Hk].
  unfold keep in Hk. apply andb_prop in Hk. destruct Hk as [Hr Hs].
  repeat split; try assumption.
  - intros E. rewrite E in Hr. discriminate.
  - intros E. rewrite E in Hs. discriminate.
Qed.

Lemma sample_run :
  script (Ok false) sample_tokens sample_listing sample_transactions 2
    sample_tokens []
  = Val [EGet (transaction_request sample_url (bearer "t"));
         ELoad sample_final] tt.
Proof. reflexivity. Qed.

Lemma filtered_rows_are_not_loaded_witness :
  let e := {| base := invoice_row "acme" 120 true "validated" (PStr sample_url);
              transaction_date := PStr "2025-02-03" |} in
  In sample_final
     (loaded (trace_of (script (Ok false) sample_tokens sample_listing
                          sample_transactions 2 sample_tokens [])))
  /\ In e sample_final
  /\ eq_True (reconciled (base e)) = true
  /\ ne_str (accounting_status (base e)) "archived" = true
  /\ reconciled (base e) <> PBool false
  /\ accounting_status (base e) <> PStr "archived".
Proof.
  intros e.
  assert (Hf : In sample_final
                 (loaded (trace_of (script (Ok false) sample_tokens
                                      sample_listing sample_transactions 2
                                      sample_tokens []))))
    by (left; reflexivity).
  assert (He : In e sample_final) by (left; reflexivity).
  split; [exact Hf|]. split; [exact He|].
  destruct (filtered_rows_are_not_loaded (Ok false) sample_tokens
              sample_listing sample_transactions 2 sample_tokens) as [_ H].
  exact (H sample_final e Hf He).
Defined.

(** C5. Every row of a frame the script hands to the load stage has a
    [transaction_date] that is neither null nor NaN; a row whose date is
    still missing after the enrichment is not in what [dropna] keeps. *)
Theorem loaded_rows_have_a_date (empty_array_truth : result bool)
  (tokens : list (string * string)) (listing : string -> http_layer)
  (transactions : http_layer) (fuel : nat)
  (completed : list (string * string)) :
  (forall final e,
     In final (loaded (trace_of (script empty_array_truth tokens listing
                                   transactions fuel completed []))) ->
     In e final ->
     transaction_date e <> PNone
     /\ isna_scalar (transaction_date e) = false)
  /\ (forall df e,
        isna_scalar (transaction_date e) = true -> ~ In e (dropna df)).
Proof.
  split.
  - intros final e Hf He.
    destruct (script_loaded _ _ _ _ _ _ _ Hf) as (all_rows & dates & ->).
    apply dropna_has_date in He. destruct He as [_ Hna].
    split; [|exact Hna]. intros E. rewrite E in Hna. discriminate.
  - intros df e Hna He. apply dropna_has_date in He. destruct He as [_ H].
    congruence.
Qed.

Lemma loaded_rows_have_a_date_witness :
  let e := {| base := invoice_row "acme" 120 true "validated" (PStr sample_url);
              transaction_date := PStr "2025-02-03" |} in
  In sample_final
     (loaded (trace_of (script (Ok false) sample_tokens sample_listing
                          sample_transactions 2 sample_tokens [])))
  /\ In e sample_final
  /\ transaction_date e <> PNone
  /\ isna_scalar (transaction_date e) = false.
Proof.
  intros e.
  assert (Hf : In sample_final
                 (loaded (trace_of (script (Ok false) sample_tokens
                                      sample_listing sample_transactions 2
                                      sample_tokens []))))
    by (left; reflexivity).
  assert (He : In e sample_final) by (left; reflexivity).
  split; [exact Hf|]. split; [exact He|].
  destruct (loaded_rows_have_a_date (Ok false) sample_tokens
              sample_listing sample_transactions 2 sample_tokens) as [H _].
  exact (H sample_final e Hf He).
Defined.

(** ** An empty working set *)

Lemma gather_nothing (done : list (run (list row))) (all_rows : list row)
  (w : trace) :
  Forall (fun r => match r with
                   | Val _ rows => rows = []
                   | Exn _ _ => True
                   | Fuel _ => False
                   end) done ->
  gather done all_rows w = Val w all_rows.
Proof.
  induction 1 as [|r done Hr _ IH]; [reflexivity|].
  destruct r as [w' rows|w' e|w']; cbn [gather].
  - subst rows. rewrite app_nil_r. exact IH.
  - exact IH.
  - contradiction.
Qed.

(** C9. When every credential's task ends without rows - it returned
    none, or it raised and was skipped - the script fails with the
    [KeyError] of the missing [reconciled] column at line 157. The main
    thread's trace is as it was: no transaction was requested and nothing
    was handed to the load stage. *)
Theorem empty_working_set_fails_at_filter (empty_array_truth : result bool)
  (tokens : list (string * string)) (listing : string -> http_layer)
  (transactions : http_layer) (fuel : nat)
  (completed : list (string * string)) (w : trace) :
  Forall (fun item => match task listing fuel item with
                      | Val _ rows => rows = []
                      | Exn _ _ => True
                      | Fuel _ => False
                      end) completed ->
  script empty_array_truth tokens listing transactions fuel completed w
  = Exn w (KeyError "reconciled").
Proof.
  intros H. unfold script, bind at 1.
  rewrite gather_nothing; [reflexivity|].
  apply Forall_map. exact H.
Qed.

Lemma empty_working_set_fails_at_filter_witness :
  script (Ok false) [("acme", "t"); ("globex", "u")]
    (fun name => if (name =? "acme")%string
                 then always (listing_page [] false PNone)
                 else unreachable)
    sample_transactions 3 [("globex", "u"); ("acme", "t")] []
  = Exn [] (KeyError "reconciled").
Proof.
  apply (empty_working_set_fails_at_filter (Ok false)
           [("acme", "t"); ("globex", "u")]
           (fun name => if (name =? "acme")%string
                        then always (listing_page [] false PNone)
                        else unreachable)
           sample_transactions 3 [("globex", "u"); ("acme", "t")] []).
  apply Forall_cons; [exact I|].
  apply Forall_cons; [reflexivity | apply Forall_nil].
Defined.

(** ** Rows without a usable transaction reference *)

Section Skipping.

Variable empty_array_truth : result bool.
Variable tokens : list (string * string).
Variable transactions : http_layer.

(** Line 166 on anything but a list: every value that is not a string is
    skipped, and a string is skipped when stripping leaves nothing. *)
Lemma skip_row_not_list (url : pyval) :
  (forall l, url <> PList l) ->
  skip_row empty_array_truth url
  = Ok match url with
       | PStr s => (strip s =? EmptyString)%string
       | _ => true
       end.
Proof.
  intros Hl. unfold skip_row.
  destruct url as [|b|z|f|s|l|d|l]; try (destruct (negb (truthy _)); reflexivity).
  - destruct f; destruct (negb (truthy _)); reflexivity.
  - cbn [truthy]. destruct s as [|c s]; [reflexivity|].
    cbn [isna_truth isna_scalar rbind truthy]. rewrite !negb_involutive.
    reflexivity.
  - destruct (Hl l eq_refl).
Qed.

(** A skipped row gets a null date, and the trace stays as it was: no
    request goes out for it. *)
Lemma skipped_row_gets_no_date (fuel : nat) (r : row) (w : trace) :
  skip_row empty_array_truth (matching_transaction r) = Ok true ->
  transaction_date_of empty_array_truth tokens transactions fuel r w
  = Val w PNone.
Proof.
  intros H. unfold transaction_date_of, bind, lift. rewrite H. reflexivity.
Qed.

Lemma unusable_reference_no_call (fuel : nat) (r : row) (w : trace) :
  (forall l, matching_transaction r <> PList l) ->
  (forall s, matching_transaction r = PStr s -> strip s = EmptyString) ->
  transaction_date_of empty_array_truth tokens transactions fuel r w
  = Val w PNone.
Proof.
  intros Hl Hs. apply skipped_row_gets_no_date.
  rewrite skip_row_not_list by assumption.
  destruct (matching_transaction r); try reflexivity.
  rewrite (Hs s eq_refl). reflexivity.
Qed.

End Skipping.

(** C7, as the code has it. A row whose [matching_transaction] is a list
    of two values is not a string, yet line 166 does not skip it:
    [pd.isna] answers with an array of two booleans, whose truth value the
    [or] cannot take, and the [ValueError] ends the run before
    [transaction_dates] gets an entry for the row and before anything is
    loaded. *)
Theorem list_reference_stops_the_run (empty_array_truth : result bool)
  (tokens : list (string * string)) (transactions : http_layer)
  (fuel : nat) (w : trace) :
  skip_row empty_array_truth list_url = Raise ValueError
  /\ transaction_date_of empty_array_truth tokens transactions fuel
       (invoice_row "acme" 120 true "validated" list_url) w
     = Exn w ValueError
  /\ script empty_array_truth tokens
       (fun _ => served [listing_page [invoice 120 true "validated" list_url]
                           false PNone])
       transactions 2 [("acme", "t")] []
     = Exn [] ValueError.
Proof.
  repeat split; reflexivity.
Qed.

(** * Further properties of the code *)

(** ** Bounds of the listing retry loop *)

Lemma sleeps_app (w1 w2 : trace) : sleeps (w1 ++ w2) = sleeps w1 ++ sleeps w2.
Proof.
  induction w1 as [|e w1 IH]; [reflexivity|].
  destruct e; cbn; rewrite IH; reflexivity.
Qed.

Lemma backoff_range (retries : nat) : 1 <= backoff retries <= 60.
Proof.
  unfold backoff.
  assert (0 < 2 ^ Z.of_nat retries) by (apply Z.pow_pos_nonneg; lia).
  lia.
Qed.

Lemma backoff_range_Q (retries : nat) :
  (1 <= inject_Z (backoff retries) <= 60)%Q.
Proof.
  destruct (backoff_range retries) as [Hlo Hhi]. split.
  - change (inject_Z 1 <= inject_Z (backoff retries))%Q.
    rewrite <- Zle_Qle. exact Hlo.
  - change (inject_Z (backoff retries) <= inject_Z 60)%Q.
    rewrite <- Zle_Qle. exact Hhi.
Qed.

Lemma request_loop_bounded (http : http_layer) (url : string)
  (hdrs : headers) (ps : params) (fuel m retries : nat) (w : trace) :
  (m <= fuel + retries)%nat ->
  exists evs,
    trace_of (request_loop http fuel url hdrs ps m retries w) = w ++ evs
    /\ (calls evs <= m - retries)%nat
    /\ (List.length (sleeps evs) <= calls evs)%nat
    /\ Forall (fun q => (1 <= q <= 60)%Q) (sleeps evs).
Proof.
  set (rq := {| req_url := url; req_headers := hdrs; req_params := Some ps |}).
  revert retries w. induction fuel as [|fuel IH]; intros retries w Hf.
  - rewrite request_loop_done by lia. exists []. rewrite app_nil_r.
    cbn. repeat split; [lia | lia | constructor].
  - destruct (Nat.ltb_spec retries m) as [Hlt|Hge].
    2:{ rewrite request_loop_done by lia. exists []. rewrite app_nil_r.
        cbn. repeat split; [lia | lia | constructor]. }
    assert (Hone : (calls [EGet rq] <= m - retries)%nat) by (cbn; lia).
    destruct (http (calls w) rq) as [r|] eqn:Hr.
    + destruct (Z.eq_dec (status_code r) 200) as [H2|H2].
      { rewrite (request_loop_200 _ _ _ _ _ _ _ _ r) by assumption.
        exists [EGet rq]. cbn. repeat split; [exact Hone | lia | constructor]. }
      destruct (Z.eq_dec (status_code r) 429) as [H4|H4].
      { rewrite (request_loop_429 _ _ _ _ _ _ _ _ r) by assumption. fold rq.
        destruct (IH (S retries) (w ++ round rq (backoff retries)))
          as (evs & Ht & Hc & Hl & Hq); [lia|].
        exists (round rq (backoff retries) ++ evs).
        rewrite Ht, app_assoc, calls_app, sleeps_app. cbn.
        repeat split; [lia | lia |].
        constructor; [apply backoff_range_Q | exact Hq]. }
      rewrite (request_loop_other _ _ _ _ _ _ _ _ r) by assumption.
      exists [EGet rq]. cbn. repeat split; [exact Hone | lia | constructor].
    + rewrite request_loop_fails by assumption.
      exists [EGet rq]. cbn. repeat split; [exact Hone | lia | constructor].
Qed.

(** X1. Whatever the server does, a call of [request_with_retries] sends
    at most [max_retries] requests, waits at most once per request, and
    every wait lasts between 1 and 60 seconds. *)
Theorem retry_get_is_bounded (http : http_layer) (url : string)
  (hdrs : headers) (ps : params) (max_retries : nat) (w : trace) :
  exists evs,
    trace_of (request_with_retries http url hdrs ps max_retries w) = w ++ evs
    /\ (calls evs <= max_retries)%nat
    /\ (List.length (sleeps evs) <= calls evs)%nat
    /\ Forall (fun q => (1 <= q <= 60)%Q) (sleeps evs).
Proof.
  unfold request_with_retries.
  destruct (request_loop_bounded http url hdrs ps max_retries max_retries 0 w)
    as (evs & Ht & Hc & Hl & Hq); [lia|].
  exists evs. repeat split; try assumption. lia.
Qed.

Lemma request_loop_answer (http : http_layer) (url : string)
  (hdrs : headers) (ps : params) (k fuel m retries : nat) (w : trace)
  (r : response) :
  let rq := {| req_url := url; req_headers := hdrs; req_params := Some ps |} in
  (k < fuel)%nat ->
  (retries + k < m)%nat ->
  (forall i, (i < k)%nat ->
     exists r', http (calls w + i)%nat rq = Responds r'
                /\ status_code r' = 429) ->
  http (calls w + k)%nat rq = Responds r ->
  status_code r <> 429 ->
  request_loop http fuel url hdrs ps m retries w
  = Val (w ++ rounds rq backoff retries k ++ [EGet rq]) (listing_answer r).
Proof.
  intros rq. revert fuel retries w.
  induction k as [|k IH]; intros fuel retries w Hf Hm H Hr H4.
  - destruct fuel as [|fuel]; [lia|]. rewrite Nat.add_0_r in Hr.
    unfold listing_answer. cbn [rounds app].
    destruct (Z.eqb_spec (status_code r) 200) as [H2|H2].
    + apply (request_loop_200 _ _ _ _ _ _ _ _ r); (assumption || lia).
    + apply (request_loop_other _ _ _ _ _ _ _ _ r); (assumption || lia).
  - destruct fuel as [|fuel]; [lia|].
    destruct (H 0%nat) as (r' & Hr' & Hs'); [lia|].
    rewrite Nat.add_0_r in Hr'.
    rewrite (request_loop_429 _ _ _ _ _ _ _ _ r') by (assumption || lia).
    fold rq. rewrite IH; [|lia|lia| | |assumption].
    + cbn [rounds]. rewrite <- !app_assoc. reflexivity.
    + intros i Hi. rewrite calls_round.
      destruct (H (S i)) as (r'' & Hr'' & Hs''); [lia|].
      exists r''. rewrite Nat.add_succ_r in Hr''. auto.
    + rewrite calls_round. rewrite Nat.add_succ_r in Hr. exact Hr.
Qed.

(** X2. When the listing answers [k] times with 429, [k] below the
    attempt cap, and then with any other status, [request_with_retries]
    has sent [k + 1] requests, has waited [min(60, 2 ** i)] seconds after
    the [i]-th 429, and returns that last response if its status is 200,
    nothing otherwise. A status other than 200 and 429 is never retried. *)
Theorem retry_get_returns_first_answer (http : http_layer) (url : string)
  (hdrs : headers) (ps : params) (k max_retries : nat) (w : trace)
  (r : response) :
  let rq := {| req_url := url; req_headers := hdrs; req_params := Some ps |} in
  (k < max_retries)%nat ->
  (forall i, (i < k)%nat ->
     exists r', http (calls w + i)%nat rq = Responds r'
                /\ status_code r' = 429) ->
  http (calls w + k)%nat rq = Responds r ->
  status_code r <> 429 ->
  request_with_retries http url hdrs ps max_retries w
  = Val (w ++ rounds rq backoff 0 k ++ [EGet rq]) (listing_answer r).
Proof.
  intros rq Hk H Hr H4. unfold request_with_retries.
  apply request_loop_answer; (assumption || lia).
Qed.

Lemma retry_get_returns_first_answer_witness :
  let page := listing_page [] false PNone in
  let rq := listing_request (bearer "t") first_params in
  request_with_retries (served [status_only 429; page]) BASE_URL (bearer "t")
    first_params 5 []
  = Val [EGet rq; ESleep 1; EGet rq] (Some page).
Proof.
  intros page rq.
  apply (retry_get_returns_first_answer (served [status_only 429; page])
           BASE_URL (bearer "t") first_params 1 5 [] page).
  - apply le_S, le_S, le_S, le_n.
  - intros i Hi. exists (status_only 429).
    destruct i as [|i]; [split; reflexivity|].
    apply Nat.succ_lt_mono in Hi. destruct (Nat.nlt_0_r _ Hi).
  - reflexivity.
  - discriminate.
Defined.

(** ** Answers of the transaction fetcher *)

Lemma first_date_or_none (items : pyval) :
  match first_date items with
  | Ok v => v
  | Raise _ => PNone
  end
  = match items with
    | PList (PDict item :: _) => dict_get item "date" PNone
    | PTuple (PDict item :: _) => dict_get item "date" PNone
    | _ => PNone
    end.
Proof.
  unfold first_date.
  destruct items as [|b|z|f|s|l|d|l]; cbn [truthy].
  - reflexivity.
  - destruct b; reflexivity.
  - destruct (negb (z =? 0)); reflexivity.
  - destruct (float_truthy f); reflexivity.
  - destruct (negb (s =? EmptyString)%string); reflexivity.
  - destruct l as [|x l]; [reflexivity|]. cbn. destruct x; reflexivity.
  - destruct (negb (is_empty d)); reflexivity.
  - destruct l as [|x l]; [reflexivity|]. cbn. destruct x; reflexivity.
Qed.

(** The [try] block with its handler, on an outcome that ends the loop. *)
Lemma transaction_attempt_final (http : http_layer) (url : string)
  (hdrs : headers) (retries : nat) (w : trace) (v : pyval) :
  final_answer (http (calls w) (transaction_request url hdrs)) = Some v ->
  try_except (transaction_attempt http url hdrs retries)
             (fun _ => ret (Some PNone)) w
  = Val (w ++ [EGet (transaction_request url hdrs)]) (Some v).
Proof.
  unfold try_except, transaction_attempt, bind at 1, requests_get.
  fold (transaction_request url hdrs).
  destruct (http (calls w) (transaction_request url hdrs)) as [r|];
    cbn [final_answer]; [|intros [= <-]; reflexivity].
  unfold transient, date_of.
  destruct (status_code r =? 200) eqn:H2.
  - apply Z.eqb_eq in H2. rewrite H2. cbn [Z.eqb Z.leb Z.ltb Z.compare Pos.compare
      Pos.compare_cont orb andb Pos.eqb].
    intros [= <-].
    destruct (json r) as [data|]; [|reflexivity].
    destruct data; try reflexivity.
    cbn [py_get lift bind]. unfold bind at 1, lift.
    pose proof (first_date_or_none (dict_get d "items" (PList []))) as Hd.
    destruct (first_date (dict_get d "items" (PList []))) as [x|e];
      rewrite <- Hd; reflexivity.
  - destruct (status_code r =? 429); [discriminate|]. cbn [orb].
    destruct ((500 <=? status_code r) && (status_code r <? 600));
      [discriminate|].
    intros [= <-]. reflexivity.
Qed.

Lemma final_answer_not_transient (http : http_layer) (n : nat) (rq : request)
  (r : response) (v : pyval) :
  http n rq = Responds r -> transient r = true ->
  final_answer (http n rq) <> Some v.
Proof.
  intros -> Ht. cbn. rewrite Ht. discriminate.
Qed.

Lemma transaction_loop_answer (http : http_layer) (url : string)
  (hdrs : headers) (m k fuel first : nat) (w : trace) (v : pyval) :
  let rq := transaction_request url hdrs in
  (0 < m)%nat -> (k < fuel)%nat ->
  (forall i, (i < k)%nat ->
     exists r', http (calls w + i)%nat rq = Responds r'
                /\ transient r' = true) ->
  final_answer (http (calls w + k)%nat rq) = Some v ->
  transaction_loop http fuel url hdrs m 0 w
  = Val (w ++ rounds rq (fun _ => 1) first k ++ [EGet rq]) v.
Proof.
  intros rq Hm. apply Nat.ltb_lt in Hm. revert fuel first w.
  induction k as [|k IH]; intros fuel first w Hf H Hv;
    (destruct fuel as [|fuel]; [lia|]); cbn [transaction_loop]; rewrite Hm.
  - rewrite Nat.add_0_r in Hv. unfold bind at 1.
    rewrite (transaction_attempt_final http url hdrs 0 w v Hv). reflexivity.
  - destruct (H 0%nat) as (r' & Hr' & Ht'); [lia|].
    rewrite Nat.add_0_r in Hr'. unfold bind at 1, try_except.
    rewrite (transaction_attempt_transient http url hdrs 0 w r' Hr' Ht').
    rewrite (IH fuel (S first)); [| lia | |].
    + cbn [rounds]. rewrite <- !app_assoc. reflexivity.
    + intros i Hi. rewrite calls_round.
      destruct (H (S i)) as (r'' & Hr'' & Ht''); [lia|].
      exists r''. rewrite Nat.add_succ_r in Hr''. auto.
    + rewrite calls_round. rewrite Nat.add_succ_r in Hv. exact Hv.
Qed.

(** X3. When the transaction endpoint answers [k] times with 429 or 5xx
    and then in any other way, the fetcher sends [k + 1] requests, waits
    one second after each of the first [k], and returns what the last
    outcome carries: the date of the first item of a well-formed 200
    body, and null for a failed request, for any other status and for a
    body that does not decode or has another shape. The number [k] is not
    bounded by [max_retries]. *)
Theorem transaction_fetch_returns_first_answer (http : http_layer)
  (url : string) (hdrs : headers) (max_retries k fuel : nat) (w : trace)
  (v : pyval) :
  let rq := transaction_request url hdrs in
  (0 < max_retries)%nat -> (k < fuel)%nat ->
  (forall i, (i < k)%nat ->
     exists r', http (calls w + i)%nat rq = Responds r'
                /\ transient r' = true) ->
  final_answer (http (calls w + k)%nat rq) = Some v ->
  fetch_transaction_date_with_retries http fuel url hdrs max_retries w
  = Val (w ++ rounds rq (fun _ => 1) 0 k ++ [EGet rq]) v.
Proof.
  intros rq Hm Hk H Hv. unfold fetch_transaction_date_with_retries.
  apply transaction_loop_answer; assumption.
Qed.

Lemma transaction_fetch_returns_first_answer_witness :
  let answers := [status_only 503; status_only 429; status_only 503;
                  status_only 429; status_only 503; status_only 429;
                  body (PDict [("items", PList [PDict [("date", PStr "2025-02-03")]])])] in
  let rq := transaction_request sample_url (bearer "t") in
  fetch_transaction_date_with_retries (served answers) 7 sample_url
    (bearer "t") 5 []
  = Val [EGet rq; ESleep 1; EGet rq; ESleep 1; EGet rq; ESleep 1;
         EGet rq; ESleep 1; EGet rq; ESleep 1; EGet rq; ESleep 1; EGet rq]
        (PStr "2025-02-03").
Proof.
  intros answers rq.
  apply (transaction_fetch_returns_first_answer (served answers) sample_url
           (bearer "t") 5 6 7 [] (PStr "2025-02-03")).
  - apply Nat.lt_0_succ.
  - apply le_n.
  - intros i Hi. exists (nth i answers (status_only 404)).
    split; [reflexivity|].
    do 6 (destruct i as [|i]; [reflexivity|]).
    do 6 apply Nat.succ_lt_mono in Hi. destruct (Nat.nlt_0_r _ Hi).
  - reflexivity.
Defined.


(** ** What the page loop keeps *)

Lemma make_row_tag (token_name : string) (invoice : pyval) (r : row) :
  make_row token_name invoice = Ok r -> tag r = token_name.
Proof.
  intros H. destruct invoice; try discriminate.
  unfold make_row in H. cbn [py_get rbind] in H.
  destruct (if truthy (dict_get d "supplier" PNone)
            then py_get (dict_get d "supplier" PNone) "id" PNone
            else Ok PNone); [|discriminate].
  destruct (if truthy (dict_get d "matched_transactions" PNone)
            then py_get (dict_get d "matched_transactions" PNone) "url" PNone
            else Ok PNone); [|discriminate].
  cbn [rbind] in H. injection H as <-. reflexivity.
Qed.

Lemma make_rows_tag (token_name : string) (invoices : list pyval)
  (rs : list row) :
  make_rows token_name invoices = Ok rs ->
  Forall (fun r => tag r = token_name) rs.
Proof.
  revert rs. induction invoices as [|i l IH]; intros rs H.
  - injection H as <-. constructor.
  - cbn [make_rows] in H.
    destruct (make_row token_name i) as [r|] eqn:Hr; [|discriminate].
    destruct (make_rows token_name l) as [rs'|]; [|discriminate].
    cbn [rbind] in H. injection H as <-.
    constructor; [eapply make_row_tag; eassumption | apply IH; reflexivity].
Qed.

Lemma make_rows_length (token_name : string) (invoices : list pyval)
  (rs : list row) :
  make_rows token_name invoices = Ok rs ->
  List.length rs = List.length invoices.
Proof.
  revert rs. induction invoices as [|i l IH]; intros rs H.
  - injection H as <-. reflexivity.
  - cbn [make_rows] in H.
    destruct (make_row token_name i) as [r|]; [|discriminate].
    destruct (make_rows token_name l) as [rs'|]; [|discriminate].
    cbn [rbind] in H. injection H as <-. cbn. rewrite (IH rs'); reflexivity.
Qed.

(** The rows of a page that was read come from its items. *)
Lemma read_page_rows (token_name : string) (resp : option response)
  (new_rows : list row) (has_more cursor : pyval) :
  read_page token_name resp = Ok (Page new_rows has_more cursor) ->
  exists invoices, make_rows token_name invoices = Ok new_rows.
Proof.
  unfold read_page. destruct (no_response resp); [discriminate|].
  destruct resp as [r|]; [|discriminate].
  destruct (json r) as [data|]; [|discriminate].
  destruct data; try discriminate. cbn [py_get rbind].
  destruct (is_None (dict_get d "items" PNone)); [discriminate|].
  destruct (py_iter (dict_get d "items" (PList []))) as [invoices|];
    [|discriminate].
  cbn [rbind].
  destruct (make_rows token_name invoices) as [rs|] eqn:Hrows; [|discriminate].
  cbn [rbind]. intros [= <- _ _]. eauto.
Qed.

Section Accumulation.

Variable http : http_layer.
Variables (token_name : string) (hdrs : headers).

Lemma fetch_loop_rows (fuel : nat) :
  forall rows cursor has_more ps w w' out,
    fetch_loop http fuel token_name hdrs rows cursor has_more ps w
    = Val w' out ->
    exists more,
      out = rows ++ more /\ Forall (fun r => tag r = token_name) more.
Proof.
  induction fuel as [|fuel IH]; intros rows cursor has_more ps w w' out;
    destruct (truthy has_more) eqn:Hm;
    try (rewrite fetch_loop_stop by assumption; intros [= _ <-];
         exists []; rewrite app_nil_r; split; [reflexivity | constructor]).
  - rewrite fetch_loop_fuel by assumption. discriminate.
  - rewrite fetch_loop_unfold by assumption.
    destruct (request_with_retries http BASE_URL hdrs (with_cursor ps cursor) 5 w)
      as [w1 resp|w1 e|w1]; try discriminate.
    destruct (read_page token_name resp) as [[|new hm c]|e] eqn:Hp;
      try discriminate.
    + intros [= _ <-]. exists []. rewrite app_nil_r.
      split; [reflexivity | constructor].
    + intros H. apply IH in H. destruct H as (more & -> & Hmore).
      destruct (read_page_rows _ _ _ _ _ Hp) as (invoices & Hrows).
      exists (new ++ more). rewrite app_assoc. split; [reflexivity|].
      apply Forall_app. split; [|exact Hmore].
      eapply make_rows_tag; eassumption.
Qed.

Lemma requests_retry (rq : request) (evs : trace) :
  Forall (retry_event rq) evs -> Forall (fun x => x = rq) (requests evs).
Proof.
  induction 1 as [|e evs He _ IH]; [constructor|].
  destruct He as [->|(q & ->)]; cbn; [constructor; auto | exact IH].
Qed.

Lemma with_cursor_filter (ps : params) (cursor : pyval) :
  p_filter (with_cursor ps cursor) = p_filter ps.
Proof.
  unfold with_cursor. destruct (truthy cursor); reflexivity.
Qed.

Lemma fetch_loop_requests (fuel : nat) :
  forall rows cursor has_more ps w,
    p_filter ps = filters ->
    exists evs,
      trace_of (fetch_loop http fuel token_name hdrs rows cursor has_more ps w)
      = w ++ evs
      /\ Forall (fun rq => req_url rq = BASE_URL /\ req_headers rq = hdrs
                           /\ exists ps', req_params rq = Some ps'
                                          /\ p_filter ps' = filters)
                (requests evs).
Proof.
  induction fuel as [|fuel IH]; intros rows cursor has_more ps w Hfilter;
    destruct (truthy has_more) eqn:Hm;
    try (rewrite fetch_loop_stop by assumption; exists [];
         rewrite app_nil_r; split; [reflexivity | constructor]).
  - rewrite fetch_loop_fuel by assumption. exists [].
    rewrite app_nil_r. split; [reflexivity | constructor].
  - rewrite fetch_loop_unfold by assumption.
    pose proof (request_with_retries_outcome http BASE_URL hdrs
                  (with_cursor ps cursor) 5 w) as (evs & Ht & Hev & _).
    assert (Hreq : Forall (fun rq => req_url rq = BASE_URL
                             /\ req_headers rq = hdrs
                             /\ exists ps', req_params rq = Some ps'
                                            /\ p_filter ps' = filters)
                          (requests evs)).
    { apply requests_retry in Hev. eapply Forall_impl; [|exact Hev].
      intros rq ->. cbn. repeat split. eexists. split; [reflexivity|].
      rewrite with_cursor_filter. exact Hfilter. }
    destruct (request_with_retries http BASE_URL hdrs (with_cursor ps cursor) 5 w)
      as [w1 resp|w1 e|w1]; cbn [trace_of] in Ht; subst w1;
      try (exists evs; split; [reflexivity | exact Hreq]).
    destruct (read_page token_name resp) as [[|new hm c]|e];
      try (exists evs; split; [reflexivity | exact Hreq]).
    destruct (IH (rows ++ new) c hm (with_cursor ps cursor)
                 ((w ++ evs) ++ [ESleep (1 # 2)])) as (evs' & Ht' & Hreq').
    { rewrite with_cursor_filter. exact Hfilter. }
    exists (evs ++ ESleep (1 # 2) :: evs'). split.
    + rewrite Ht'. rewrite <- !app_assoc. reflexivity.
    + rewrite requests_app. apply Forall_app. split; assumption.
Qed.

(** A server that always has one more page keeps the loop going. *)
Lemma fetch_loop_endless (fuel : nat) :
  (forall n rq, exists r items has_more cursor,
      http n rq = Responds r /\ is_page r items has_more cursor
      /\ truthy has_more = true /\ forallb invoice_ok items = true) ->
  forall rows cursor has_more ps w,
    truthy has_more = true ->
    exists w',
      fetch_loop http fuel token_name hdrs rows cursor has_more ps w = Fuel w'
      /\ calls w' = (calls w + fuel)%nat.
Proof.
  intros H. induction fuel as [|fuel IH]; intros rows cursor has_more ps w Hm.
  - rewrite fetch_loop_fuel by assumption. exists w. split; [reflexivity | lia].
  - destruct (H (calls w) (listing_request hdrs (with_cursor ps cursor)))
      as (r & items & hm & c & Hr & Hp & Hhm & Hok).
    destruct (make_rows_ok token_name items Hok) as (new & Hrows).
    rewrite (fetch_loop_page http token_name hdrs _ _ _ _ _ _ r items hm c new)
      by assumption.
    destruct (IH (rows ++ new) c hm (with_cursor ps cursor)
                 (w ++ [EGet (listing_request hdrs (with_cursor ps cursor));
                        ESleep (1 # 2)]) Hhm) as (w' & Hw' & Hc).
    exists w'. split; [exact Hw'|]. rewrite Hc, calls_app. cbn. lia.
Qed.

End Accumulation.

(** X5. Every row that [fetch_invoices_for_token] returns carries the
    credential's name as its tag, whatever the pages contain. *)
Theorem fetched_rows_are_tagged (http : http_layer) (fuel : nat)
  (token_name token_value : string) (w w' : trace) (rows : list row) :
  fetch_invoices_for_token http fuel token_name token_value w = Val w' rows ->
  Forall (fun r => tag r = token_name) rows.
Proof.
  unfold fetch_invoices_for_token. intros H.
  apply fetch_loop_rows in H. destruct H as (more & -> & Hmore).
  exact Hmore.
Qed.

Lemma fetched_rows_are_tagged_witness :
  Forall (fun r => tag r = "acme")
    [invoice_row "acme" 120 true "validated" (PStr sample_url);
     invoice_row "acme" 80 false "validated" (PStr sample_url);
     invoice_row "acme" 45 true "archived" (PStr sample_url);
     invoice_row "acme" 30 true "validated" (PStr EmptyString)].
Proof.
  apply (fetched_rows_are_tagged (sample_listing "acme") 2 "acme" "t" []
           [EGet (listing_request (bearer "t") first_params); ESleep (1 # 2)]).
  reflexivity.
Defined.

(** X6. The page loop only ever appends: whenever it returns, the rows it
    held at the top of an iteration are the beginning of its result, in
    the same order, whatever the later pages bring and however the loop
    ends. *)
Theorem page_loop_only_appends (http : http_layer) (fuel : nat)
  (token_name : string) (hdrs : headers) (rows : list row)
  (cursor has_more : pyval) (ps : params) (w w' : trace) (out : list row) :
  fetch_loop http fuel token_name hdrs rows cursor has_more ps w = Val w' out ->
  exists more, out = rows ++ more.
Proof.
  intros H. apply fetch_loop_rows in H. destruct H as (more & -> & _).
  exists more. reflexivity.
Qed.

Lemma page_loop_only_appends_witness :
  let held := [invoice_row "acme" 7 true "validated" PNone] in
  exists more,
    held ++ [invoice_row "acme" 120 true "validated" PNone] = held ++ more.
Proof.
  intros held.
  apply (page_loop_only_appends
           (served [listing_page [invoice 120 true "validated" PNone] true PNone;
                    status_only 500])
           3 "acme" (bearer "t") held PNone (PBool true) first_params []
           [EGet (listing_request (bearer "t") first_params); ESleep (1 # 2);
            EGet (listing_request (bearer "t") first_params)]).
  reflexivity.
Defined.

(** X7. Every request of a credential's pagination goes to the listing
    URL, carries that credential's bearer header, and has the date filter
    among its parameters, with or without a cursor. *)
Theorem listing_requests_are_uniform (http : http_layer) (fuel : nat)
  (token_name token_value : string) :
  Forall (fun rq => req_url rq = BASE_URL
                    /\ req_headers rq = bearer token_value
                    /\ exists ps, req_params rq = Some ps
                                  /\ p_filter ps = filters)
    (requests (trace_of (fetch_invoices_for_token http fuel token_name
                           token_value []))).
Proof.
  unfold fetch_invoices_for_token.
  destruct (fetch_loop_requests http token_name (bearer token_value) fuel []
              PNone (PBool true) {| p_filter := filters; p_cursor := None |} []
              eq_refl) as (evs & -> & H).
  exact H.
Qed.

(** X8. Pagination has no page limit of its own: against a listing that
    answers every request with a readable page reporting more data, the
    loop never returns; with fuel for [n] iterations it has sent [n]
    requests and is still running. *)
Theorem pagination_has_no_page_limit (http : http_layer) (fuel : nat)
  (token_name token_value : string) :
  (forall n rq, exists r items has_more cursor,
      http n rq = Responds r /\ is_page r items has_more cursor
      /\ truthy has_more = true /\ forallb invoice_ok items = true) ->
  exists w',
    fetch_invoices_for_token http fuel token_name token_value [] = Fuel w'
    /\ calls w' = fuel.
Proof.
  intros H. unfold fetch_invoices_for_token.
  destruct (fetch_loop_endless http token_name (bearer token_value) fuel H []
              PNone (PBool true) {| p_filter := filters; p_cursor := None |} []
              eq_refl) as (w' & Hw' & Hc).
  exists w'. split; [exact Hw' | exact Hc].
Qed.

Lemma pagination_has_no_page_limit_witness :
  let rq0 := listing_request (bearer "t") first_params in
  let rq1 := listing_request (bearer "t") (set_cursor first_params (PStr "C")) in
  fetch_invoices_for_token (always (listing_page [] true (PStr "C"))) 3
    "acme" "t" []
  = Fuel [EGet rq0; ESleep (1 # 2); EGet rq1; ESleep (1 # 2);
          EGet rq1; ESleep (1 # 2)]
  /\ exists w',
       fetch_invoices_for_token (always (listing_page [] true (PStr "C"))) 3
         "acme" "t" [] = Fuel w'
       /\ calls w' = 3%nat.
Proof.
  intros rq0 rq1. split; [reflexivity|].
  apply (pagination_has_no_page_limit (always (listing_page [] true (PStr "C")))
           3 "acme" "t").
  intros n rq. exists (listing_page [] true (PStr "C")), [], (PBool true), (PStr "C").
  repeat split. eexists. repeat split.
Defined.

(** ** Collecting the tasks *)

Lemma gather_result (done : list (run (list row))) :
  forall all_rows w w' out,
    gather done all_rows w = Val w' out ->
    w' = w /\ out = all_rows ++ List.concat (map rows_of done)
    /\ Forall finished done.
Proof.
  induction done as [|[w1 rows|w1 e|w1] done IH]; intros all_rows w w' out;
    cbn [gather map List.concat rows_of].
  - intros [= <- <-]. rewrite app_nil_r. repeat split. constructor.
  - intros H. apply IH in H. destruct H as (-> & -> & Hf).
    rewrite app_assoc. repeat split. constructor; [exact I | exact Hf].
  - intros H. apply IH in H. destruct H as (-> & -> & Hf).
    repeat split. constructor; [exact I | exact Hf].
  - discriminate.
Qed.

Lemma gather_finished (done : list (run (list row)))
  (all_rows : list row) (w : trace) :
  Forall finished done ->
  gather done all_rows w = Val w (all_rows ++ List.concat (map rows_of done)).
Proof.
  revert all_rows. induction done as [|r done IH]; intros all_rows H.
  - cbn. rewrite app_nil_r. reflexivity.
  - inversion H as [|r' done' Hr Hd]; subst.
    destruct r as [w1 rows|w1 e|w1]; cbn [gather map List.concat rows_of].
    + rewrite IH by assumption. rewrite app_assoc. reflexivity.
    + apply IH. assumption.
    + destruct Hr.
Qed.


(** X9. Once every task has come to an end, [all_rows] is the
    concatenation, in completion order, of the rows of the tasks that
    returned; a task that raised adds nothing and takes nothing away from
    the others. *)
Theorem gather_concatenates (done : list (run (list row)))
  (all_rows : list row) (w : trace) :
  Forall finished done ->
  gather done all_rows w = Val w (all_rows ++ List.concat (map rows_of done)).
Proof.
  apply gather_finished.
Qed.

Lemma gather_concatenates_witness :
  let first := [invoice_row "acme" 120 true "validated" PNone] in
  let last := [invoice_row "globex" 45 true "archived" PNone] in
  gather [Val [] first; Exn [] ConnectionError; Val [] last] [] []
  = Val [] ([] ++ List.concat (map rows_of [Val [] first; Exn [] ConnectionError;
                                       Val [] last])).
Proof.
  intros first last.
  apply (gather_concatenates [Val [] first; Exn [] ConnectionError; Val [] last]
           [] []).
  repeat constructor.
Defined.

Lemma rows_of_permutation (done done' : list (run (list row))) :
  Permutation done done' ->
  Permutation (List.concat (map rows_of done)) (List.concat (map rows_of done')).
Proof.
  induction 1 as [|r l l' _ IH|r r' l|l l' l'' _ IH1 _ IH2]; cbn [map List.concat].
  - constructor.
  - apply Permutation_app_head. exact IH.
  - apply Permutation_app_swap_app.
  - eapply Permutation_trans; eassumption.
Qed.

(** X10. The order in which the tasks complete changes the order of
    [all_rows] and nothing else: two completion orders of the same tasks
    gather the same rows, each as often. *)
Theorem completion_order_permutes_rows (done done' : list (run (list row)))
  (w w1 : trace) (rows : list row) :
  Permutation done done' ->
  gather done [] w = Val w1 rows ->
  exists rows', gather done' [] w = Val w rows' /\ Permutation rows rows'.
Proof.
  intros Hp H. apply gather_result in H. destruct H as (_ & -> & Hf).
  exists (List.concat (map rows_of done')). split.
  - rewrite gather_finished; [reflexivity|].
    eapply Permutation_Forall; eassumption.
  - cbn [app]. apply rows_of_permutation. exact Hp.
Qed.

Lemma completion_order_permutes_rows_witness :
  let a := invoice_row "acme" 120 true "validated" PNone in
  let g := invoice_row "globex" 45 true "archived" PNone in
  exists rows',
    gather [Exn [] ConnectionError; Val [] [g]; Val [] [a]] [] []
    = Val [] rows'
    /\ Permutation [a; g] rows'.
Proof.
  intros a g.
  apply (completion_order_permutes_rows
           [Val [] [a]; Exn [] ConnectionError; Val [] [g]]
           [Exn [] ConnectionError; Val [] [g]; Val [] [a]] [] [] [a; g]).
  - apply perm_trans with [Exn [] ConnectionError; Val [] [a]; Val [] [g]].
    + apply perm_swap.
    + apply perm_skip. apply perm_swap.
  - reflexivity.
Defined.

(** ** Requests of the enrichment loop *)

Lemma emits_ret {A} (P : request -> Prop) (a : A) : emits P (ret a).
Proof.
  intros w. exists []. rewrite app_nil_r. split; [reflexivity | constructor].
Qed.

Lemma emits_out_of_fuel {A} (P : request -> Prop) : emits P (@out_of_fuel A).
Proof.
  intros w. exists []. rewrite app_nil_r. split; [reflexivity | constructor].
Qed.

Lemma emits_lift {A} (P : request -> Prop) (r : result A) : emits P (lift r).
Proof.
  intros w. exists []. rewrite app_nil_r.
  destruct r; split; (reflexivity || constructor).
Qed.

Lemma emits_sleep (P : request -> Prop) (q : Q) : emits P (sleep q).
Proof.
  intros w. exists [ESleep q]. split; [reflexivity | constructor].
Qed.

Lemma emits_requests_get (P : request -> Prop) (http : http_layer)
  (url : string) (hdrs : headers) (ps : option params) :
  P {| req_url := url; req_headers := hdrs; req_params := ps |} ->
  emits P (requests_get http url hdrs ps).
Proof.
  intros HP w. unfold requests_get.
  exists [EGet {| req_url := url; req_headers := hdrs; req_params := ps |}].
  destruct (http (calls w) _); split; try reflexivity;
    repeat constructor; exact HP.
Qed.

Lemma emits_bind {A B} (P : request -> Prop) (c : M A) (k : A -> M B) :
  emits P c -> (forall a, emits P (k a)) -> emits P (bind c k).
Proof.
  intros Hc Hk w. unfold bind. destruct (Hc w) as (evs & Ht & Hev).
  destruct (c w) as [w' a|w' e|w']; cbn [trace_of] in Ht; subst w';
    try (exists evs; split; [reflexivity | exact Hev]).
  destruct (Hk a (w ++ evs)) as (evs' & Ht' & Hev').
  exists (evs ++ evs'). rewrite Ht', app_assoc, requests_app.
  split; [reflexivity | apply Forall_app; split; assumption].
Qed.

Lemma emits_try_except {A} (P : request -> Prop) (c : M A) (h : exn -> M A) :
  emits P c -> (forall e, emits P (h e)) -> emits P (try_except c h).
Proof.
  intros Hc Hh w. unfold try_except. destruct (Hc w) as (evs & Ht & Hev).
  destruct (c w) as [w' a|w' e|w']; cbn [trace_of] in Ht; subst w';
    try (exists evs; split; [reflexivity | exact Hev]).
  destruct (Hh e (w ++ evs)) as (evs' & Ht' & Hev').
  exists (evs ++ evs'). rewrite Ht', app_assoc, requests_app.
  split; [reflexivity | apply Forall_app; split; assumption].
Qed.

Lemma emits_weaken {A} (P Q : request -> Prop) (c : M A) :
  (forall rq, P rq -> Q rq) -> emits P c -> emits Q c.
Proof.
  intros H Hc w. destruct (Hc w) as (evs & Ht & Hev).
  exists evs. split; [exact Ht|]. eapply Forall_impl; eassumption.
Qed.

Lemma emits_transaction_attempt (http : http_layer) (url : string)
  (hdrs : headers) (retries : nat) :
  emits (eq (transaction_request url hdrs))
        (transaction_attempt http url hdrs retries).
Proof.
  unfold transaction_attempt.
  apply emits_bind; [apply emits_requests_get; reflexivity|]. intros r.
  destruct (status_code r =? 200).
  - destruct (json r); [|apply emits_lift].
    apply emits_bind; [apply emits_lift|]. intros items.
    apply emits_bind; [apply emits_lift|]. intros date. apply emits_ret.
  - destruct (status_code r =? 429).
    { apply emits_bind; [apply emits_sleep | intros; apply emits_ret]. }
    destruct ((500 <=? status_code r) && (status_code r <? 600)).
    { apply emits_bind; [apply emits_sleep | intros; apply emits_ret]. }
    apply emits_ret.
Qed.

Lemma emits_transaction_loop (http : http_layer) (fuel : nat) (url : string)
  (hdrs : headers) (max_retries retries : nat) :
  emits (eq (transaction_request url hdrs))
        (transaction_loop http fuel url hdrs max_retries retries).
Proof.
  induction fuel as [|fuel IH]; cbn [transaction_loop];
    destruct (retries <? max_retries)%nat;
    try apply emits_ret; try apply emits_out_of_fuel.
  apply emits_bind.
  - apply emits_try_except; [apply emits_transaction_attempt|].
    intros e. apply emits_ret.
  - intros [date|]; [apply emits_ret | exact IH].
Qed.

Section Enrichment.

Variable empty_array_truth : result bool.
Variable tokens : list (string * string).
Variable listing : string -> http_layer.
Variable transactions : http_layer.

Lemma emits_transaction_date_of (fuel : nat) (r : row) :
  emits (request_for tokens r)
        (transaction_date_of empty_array_truth tokens transactions fuel r).
Proof.
  unfold transaction_date_of.
  apply emits_bind; [apply emits_lift|]. intros skip.
  destruct skip; [apply emits_ret|].
  destruct (tokens_get (tag r) tokens) as [token|] eqn:Ht; cbn [no_token];
    [|apply emits_ret].
  destruct (token =? EmptyString)%string eqn:He; [apply emits_ret|].
  destruct (matching_transaction r) eqn:Hu; try apply emits_ret.
  eapply emits_weaken; [|apply emits_transaction_loop].
  intros rq <-. unfold request_for. cbn. rewrite Hu.
  split; [reflexivity|]. split; [reflexivity|].
  exists token. split; [exact Ht|]. split; [|reflexivity].
  intros ->. discriminate.
Qed.

Lemma emits_enrich (fuel : nat) (rs : list row) :
  emits (fun rq => exists r, In r rs /\ request_for tokens r rq)
        (enrich empty_array_truth tokens transactions fuel rs).
Proof.
  induction rs as [|r rs IH]; cbn [enrich]; [apply emits_ret|].
  apply emits_bind.
  - eapply emits_weaken; [|apply emits_transaction_date_of].
    intros rq H. exists r. split; [left; reflexivity | exact H].
  - intros date. apply emits_bind; [|intros; apply emits_ret].
    eapply emits_weaken; [|exact IH].
    intros rq (r' & Hin & H). exists r'. split; [right; exact Hin | exact H].
Qed.

Lemma enrich_length (fuel : nat) (rs : list row) :
  forall w w' dates,
    enrich empty_array_truth tokens transactions fuel rs w = Val w' dates ->
    List.length dates = List.length rs.
Proof.
  induction rs as [|r rs IH]; intros w w' dates; cbn [enrich].
  - intros [= _ <-]. reflexivity.
  - unfold bind at 1.
    destruct (transaction_date_of _ _ _ fuel r w) as [w1 d|w1 e|w1];
      try discriminate.
    unfold bind at 1.
    destruct (enrich _ _ _ fuel rs w1) as [w2 ds|w2 e|w2] eqn:He;
      try discriminate.
    intros [= _ <-]. cbn. rewrite (IH _ _ _ He). reflexivity.
Qed.

Lemma attach_bases (rs : list row) (dates : list pyval) :
  List.length dates = List.length rs -> map base (attach rs dates) = rs.
Proof.
  revert dates. induction rs as [|r rs IH]; intros [|d dates] H;
    try discriminate; [reflexivity|].
  cbn. rewrite IH; [reflexivity|]. cbn in H. lia.
Qed.

Lemma dropna_attach_select (rs : list row) (dates : list pyval) :
  map base (dropna (attach rs dates))
  = select rs (map (fun d => negb (isna_scalar d)) dates).
Proof.
  revert dates. induction rs as [|r rs IH]; intros [|d dates];
    try reflexivity.
  unfold dropna in *. cbn [attach filter map select transaction_date].
  destruct (negb (isna_scalar d)); cbn [map base]; rewrite IH; reflexivity.
Qed.

Lemma no_token_no_request (fuel : nat) (r : row) (w : trace) :
  no_token (tokens_get (tag r) tokens) = true ->
  (forall l, matching_transaction r <> PList l) ->
  transaction_date_of empty_array_truth tokens transactions fuel r w
  = Val w PNone.
Proof.
  intros Hn Hl. unfold transaction_date_of, bind, lift.
  rewrite skip_row_not_list by assumption.
  destruct (match matching_transaction r with
            | PStr s => (strip s =? EmptyString)%string
            | _ => true
            end); [reflexivity|].
  rewrite Hn. reflexivity.
Qed.

(** Against an endpoint whose answer to a request ends the fetcher's loop
    at once and depends on the request only, a row costs the one request
    of its reference and gets the date of the answer. *)
Lemma transaction_date_stateless (answer : request -> pyval) (fuel : nat)
  (r : row) (w : trace) :
  (0 < fuel)%nat ->
  (forall n rq, final_answer (transactions n rq) = Some (answer rq)) ->
  (forall l, matching_transaction r <> PList l) ->
  transaction_date_of empty_array_truth tokens transactions fuel r w
  = Val (w ++ map EGet (sent_for tokens r)) (expected_date tokens answer r).
Proof.
  intros Hf Ha Hl. unfold transaction_date_of, bind, lift.
  rewrite skip_row_not_list by assumption.
  unfold sent_for, expected_date, reference_request.
  destruct (matching_transaction r) as [|b|z|f|url|l|d|l];
    try (cbn; rewrite app_nil_r; reflexivity).
  destruct (strip url =? EmptyString)%string;
    [cbn; rewrite app_nil_r; reflexivity|].
  destruct (tokens_get (tag r) tokens) as [token|]; cbn [no_token];
    [|cbn; rewrite app_nil_r; reflexivity].
  destruct (token =? EmptyString)%string;
    [cbn; rewrite app_nil_r; reflexivity|].
  unfold fetch_transaction_date_with_retries.
  rewrite (transaction_loop_answer transactions url (bearer token) 5 0 fuel 0
             w (answer (transaction_request url (bearer token))));
    [reflexivity | lia | exact Hf | intros i Hi; lia | apply Ha].
Qed.

Lemma enrich_stateless (answer : request -> pyval) (fuel : nat)
  (rs : list row) :
  (0 < fuel)%nat ->
  (forall n rq, final_answer (transactions n rq) = Some (answer rq)) ->
  Forall (fun r => forall l, matching_transaction r <> PList l) rs ->
  forall w,
    enrich empty_array_truth tokens transactions fuel rs w
    = Val (w ++ map EGet (flat_map (sent_for tokens) rs))
          (map (expected_date tokens answer) rs).
Proof.
  intros Hf Ha. induction 1 as [|r rs Hl _ IH]; intros w.
  - cbn. rewrite app_nil_r. reflexivity.
  - cbn [enrich flat_map map]. unfold bind at 1.
    rewrite (transaction_date_stateless answer) by assumption.
    unfold bind at 1. rewrite IH. unfold ret.
    rewrite map_app, app_assoc. reflexivity.
Qed.

Lemma enrich_cons (fuel : nat) (r : row) (rs : list row) (w w' : trace)
  (dates : list pyval) :
  enrich empty_array_truth tokens transactions fuel (r :: rs) w
  = Val w' dates ->
  exists d ds w1,
    dates = d :: ds
    /\ transaction_date_of empty_array_truth tokens transactions fuel r w
       = Val w1 d
    /\ enrich empty_array_truth tokens transactions fuel rs w1 = Val w' ds.
Proof.
  cbn [enrich]. unfold bind at 1.
  destruct (transaction_date_of _ _ _ fuel r w) as [w1 d|w1 e|w1] eqn:Hd;
    try discriminate.
  unfold bind at 1.
  destruct (enrich _ _ _ fuel rs w1) as [w2 ds|w2 e|w2] eqn:He;
    try discriminate.
  intros [= <- <-]. exists d, ds, w1.
  split; [reflexivity | split; [reflexivity | exact He]].
Qed.

Lemma attach_map (f : row -> pyval) (rs : list row) :
  attach rs (map f rs)
  = map (fun r => {| base := r; transaction_date := f r |}) rs.
Proof.
  induction rs as [|r rs IH]; [reflexivity|]. cbn. rewrite IH. reflexivity.
Qed.

Lemma loaded_view_dropna (f : row -> pyval) (rs : list row) :
  map loaded_view (dropna (attach rs (map f rs)))
  = map (fun r => (tag r, matching_transaction r, f r))
        (filter (fun r => negb (isna_scalar (f r))) rs).
Proof.
  rewrite attach_map. unfold dropna.
  induction rs as [|r rs IH]; [reflexivity|].
  cbn [map filter transaction_date].
  destruct (negb (isna_scalar (f r))); cbn [map]; rewrite IH; reflexivity.
Qed.

End Enrichment.

(** X11. The enrichment loop appends exactly one date per row, in row
    order: the list of dates has the length of the frame, its first entry
    is what the loop body gives for the first row and the rest is the
    loop on the other rows, so every kept row gets its own date attached.
    Against an endpoint that answers each request at once, and the same
    request always alike, the loop sends the request of each row that has
    one, in row order, and the row's date is the date of that answer, or
    null when nothing was sent for it. *)
Theorem one_date_per_row (empty_array_truth : result bool)
  (tokens : list (string * string)) (transactions : http_layer)
  (fuel : nat) :
  (forall rs w w' dates,
     enrich empty_array_truth tokens transactions fuel rs w = Val w' dates ->
     List.length dates = List.length rs
     /\ map base (attach rs dates) = rs)
  /\ (forall r rs w w' dates,
        enrich empty_array_truth tokens transactions fuel (r :: rs) w
        = Val w' dates ->
        exists d ds w1,
          dates = d :: ds
          /\ transaction_date_of empty_array_truth tokens transactions fuel
               r w = Val w1 d
          /\ enrich empty_array_truth tokens transactions fuel rs w1
             = Val w' ds)
  /\ (forall answer rs w,
        (0 < fuel)%nat ->
        (forall n rq, final_answer (transactions n rq) = Some (answer rq)) ->
        Forall (fun r => forall l, matching_transaction r <> PList l) rs ->
        enrich empty_array_truth tokens transactions fuel rs w
        = Val (w ++ map EGet (flat_map (sent_for tokens) rs))
              (map (expected_date tokens answer) rs)
        /\ attach rs (map (expected_date tokens answer) rs)
           = map (fun r => {| base := r;
                              transaction_date :=
                                expected_date tokens answer r |}) rs).
Proof.
  split; [|split].
  - intros rs w w' dates H. apply enrich_length in H. split; [exact H|].
    apply attach_bases. exact H.
  - intros r rs w w' dates. apply enrich_cons.
  - intros answer rs w Hf Ha Hl. split.
    + apply enrich_stateless; assumption.
    + apply attach_map.
Qed.

Lemma one_date_per_row_witness :
  let first := invoice_row "acme" 120 true "validated" (PStr sample_url) in
  let second := invoice_row "acme" 30 true "validated" (PStr EmptyString) in
  let third := invoice_row "acme" 45 true "validated"
                 (PStr "https://app.pennylane.com/t/2") in
  let transactions : http_layer := fun _ rq =>
    Responds (body (PDict [("items",
                            PList [PDict [("date", PStr (req_url rq))]])])) in
  enrich (Ok false) sample_tokens transactions 1 [first; second; third] []
  = Val [EGet (transaction_request sample_url (bearer "t"));
         EGet (transaction_request "https://app.pennylane.com/t/2"
                 (bearer "t"))]
        [PStr sample_url; PNone; PStr "https://app.pennylane.com/t/2"]
  /\ attach [first; second; third]
       [PStr sample_url; PNone; PStr "https://app.pennylane.com/t/2"]
     = [{| base := first; transaction_date := PStr sample_url |};
        {| base := second; transaction_date := PNone |};
        {| base := third;
           transaction_date := PStr "https://app.pennylane.com/t/2" |}].
Proof.
  intros first second third transactions.
  destruct (one_date_per_row (Ok false) sample_tokens transactions 1)
    as (_ & _ & H).
  apply (H (fun rq => PStr (req_url rq)) [first; second; third] []).
  - apply le_n.
  - intros n rq. reflexivity.
  - repeat (constructor; [intros l E; discriminate E|]). constructor.
Defined.

Lemma script_completed (empty_array_truth : result bool)
  (tokens : list (string * string)) (listing : string -> http_layer)
  (transactions : http_layer) (fuel : nat)
  (completed : list (string * string)) (w' : trace) :
  script empty_array_truth tokens listing transactions fuel completed []
  = Val w' tt ->
  let kept :=
    filter keep (List.concat (map rows_of (map (task listing fuel) completed)))
  in
  exists evs dates,
    w' = evs ++ [ELoad (dropna (attach kept dates))]
    /\ loaded evs = []
    /\ List.length dates = List.length kept
    /\ map base (dropna (attach kept dates))
       = select kept (map (fun d => negb (isna_scalar d)) dates).
Proof.
  unfold script, bind at 1.
  destruct (gather (map (task listing fuel) completed) [] [])
    as [w all_rows|w e|w] eqn:Hg; try discriminate.
  apply gather_result in Hg. destruct Hg as (-> & -> & _). cbn [app].
  set (all_rows := List.concat (map rows_of (map (task listing fuel) completed))).
  unfold bind at 1, lift.
  destruct all_rows as [|r rs] eqn:Hall; [discriminate|].
  rewrite filter_frame_keep by discriminate. cbn [records].
  unfold bind at 1.
  pose proof (quiet_enrich empty_array_truth tokens transactions fuel
                (filter keep (r :: rs)) []) as Hq.
  destruct (enrich empty_array_truth tokens transactions fuel
              (filter keep (r :: rs)) []) as [w dates|w e|w] eqn:He;
    try discriminate.
  cbn [trace_of] in Hq. unfold to_gbq. intros [= <-].
  exists w, dates. repeat split.
  - exact Hq.
  - eapply enrich_length. exact He.
  - apply dropna_attach_select.
Qed.


(** X12. A run whose tasks have all ended, with at least one row
    gathered and no list among the kept references, against a transaction
    endpoint that answers each request at once, the same request always
    alike, and with a text date or none: the main thread sends the request
    of each kept row that has one, in the order of the gathered set, then
    hands a frame to the load stage, once and as its last action. The
    frame holds exactly the kept rows whose answer carries a date, in
    that order, each with its own date; rows are read here by tag,
    reference and date, the columns that hold strings. *)
Theorem completed_run_loads_once (empty_array_truth : result bool)
  (tokens : list (string * string)) (listing : string -> http_layer)
  (transactions : http_layer) (fuel : nat)
  (completed : list (string * string)) (answer : request -> pyval) :
  let gathered :=
    List.concat (map rows_of (map (task listing fuel) completed)) in
  let kept := filter keep gathered in
  (0 < fuel)%nat ->
  Forall finished (map (task listing fuel) completed) ->
  gathered <> [] ->
  Forall (fun r => forall l, matching_transaction r <> PList l) kept ->
  (forall n rq, final_answer (transactions n rq) = Some (answer rq)) ->
  (forall rq, is_text (answer rq)) ->
  exists final,
    script empty_array_truth tokens listing transactions fuel completed []
    = Val (map EGet (flat_map (sent_for tokens) kept) ++ [ELoad final]) tt
    /\ map loaded_view final
       = map (fun r => (tag r, matching_transaction r,
                        expected_date tokens answer r))
             (filter (fun r => negb (isna_scalar
                                       (expected_date tokens answer r)))
                     kept).
Proof.
  intros gathered kept Hf Hdone Hrows Hl Ha _.
  exists (dropna (attach kept (map (expected_date tokens answer) kept))).
  split; [|apply loaded_view_dropna].
  unfold script, bind at 1.
  rewrite gather_finished by assumption. cbn [app]. fold gathered.
  unfold bind at 1, lift.
  rewrite filter_frame_keep by assumption. cbn [records]. fold kept.
  unfold bind at 1.
  rewrite (enrich_stateless empty_array_truth tokens transactions answer)
    by assumption.
  reflexivity.
Qed.

Lemma completed_run_loads_once_witness :
  exists final,
    script (Ok false) sample_tokens sample_listing sample_transactions 2
      sample_tokens []
    = Val ([EGet (transaction_request sample_url (bearer "t"))]
           ++ [ELoad final]) tt
    /\ map loaded_view final
       = [("acme", PStr sample_url, PStr "2025-02-03")].
Proof.
  apply (completed_run_loads_once (Ok false) sample_tokens sample_listing
           sample_transactions 2 sample_tokens (fun _ => PStr "2025-02-03")).
  - apply le_S, le_n.
  - constructor; [exact I | constructor].
  - intros E. discriminate E.
  - repeat (constructor; [intros l E; discriminate E|]). constructor.
  - intros n rq. reflexivity.
  - intros rq. exact I.
Defined.

(** X13. Rows whose tag has no token in [tokens], or an empty one, cost no
    request: if that is so for every row of the frame, and no reference
    is a list, the enrichment loop leaves the trace as it was and gives
    every row a null date. *)
Theorem rows_without_token_cost_nothing (empty_array_truth : result bool)
  (tokens : list (string * string)) (transactions : http_layer)
  (fuel : nat) (rs : list row) (w : trace) :
  Forall (fun r => no_token (tokens_get (tag r) tokens) = true
                   /\ forall l, matching_transaction r <> PList l) rs ->
  enrich empty_array_truth tokens transactions fuel rs w
  = Val w (repeat PNone (List.length rs)).
Proof.
  induction 1 as [|r rs [Hn Hl] _ IH]; [reflexivity|].
  cbn [enrich]. unfold bind at 1.
  rewrite no_token_no_request by assumption.
  unfold bind at 1. rewrite IH. reflexivity.
Qed.

Lemma rows_without_token_cost_nothing_witness :
  enrich (Ok false) [("acme", EmptyString)] sample_transactions 3
    [invoice_row "acme" 120 true "validated" (PStr sample_url);
     invoice_row "globex" 45 true "validated" (PStr sample_url)] []
  = Val [] [PNone; PNone].
Proof.
  apply (rows_without_token_cost_nothing (Ok false) [("acme", EmptyString)]
           sample_transactions 3
           [invoice_row "acme" 120 true "validated" (PStr sample_url);
            invoice_row "globex" 45 true "validated" (PStr sample_url)] []).
  repeat constructor; discriminate.
Defined.

(** X14. Whatever the endpoints do, every request of the enrichment loop
    is a GET without parameters to the reference of one of the rows,
    sent with the bearer header of the token of that same row's tag; no
    other URL is contacted and no token goes to another credential's
    reference. *)
Theorem enrichment_requests_follow_rows (empty_array_truth : result bool)
  (tokens : list (string * string)) (transactions : http_layer)
  (fuel : nat) (rs : list row) (w : trace) :
  exists evs,
    trace_of (enrich empty_array_truth tokens transactions fuel rs w)
    = w ++ evs
    /\ Forall (fun rq => exists r, In r rs /\ request_for tokens r rq)
              (requests evs).
Proof.
  apply emits_enrich.
Qed.

(** ** Malformed items and blank references *)

Lemma falsy_or_dict_raises (v : pyval) (k : string) :
  falsy_or_dict v = false ->
  (if truthy v then py_get v k PNone else Ok PNone) = Raise AttributeError.
Proof.
  destruct v; cbn [falsy_or_dict]; try discriminate;
    intros H; apply negb_false_iff in H; rewrite H; reflexivity.
Qed.

Lemma make_row_raises (token_name : string) (invoice : pyval) :
  invoice_ok invoice = false ->
  make_row token_name invoice = Raise AttributeError.
Proof.
  destruct invoice; try reflexivity. cbn [invoice_ok]. intros H.
  unfold make_row. cbn [py_get rbind].
  destruct (falsy_or_dict (dict_get d "supplier" PNone)) eqn:Hs.
  - destruct (falsy_or_dict_get _ "id" Hs) as (x & ->). cbn [rbind].
    cbn [andb] in H. rewrite (falsy_or_dict_raises _ "url" H). reflexivity.
  - rewrite (falsy_or_dict_raises _ "id" Hs). reflexivity.
Qed.

(** X15. The rows of a page are built for all of its items or for none:
    when every item is an object whose [supplier] and
    [matched_transactions] are empty or objects, there is one row per
    item; when a single item is not, the loop over the page raises
    [AttributeError] and no row of the page is left. *)
Theorem page_rows_all_or_nothing (token_name : string)
  (invoices : list pyval) :
  if forallb invoice_ok invoices
  then exists rs, make_rows token_name invoices = Ok rs
                  /\ List.length rs = List.length invoices
  else make_rows token_name invoices = Raise AttributeError.
Proof.
  induction invoices as [|i l IH]; cbn [forallb make_rows].
  - exists []. split; reflexivity.
  - destruct (invoice_ok i) eqn:Hi; cbn [andb].
    + destruct (make_row_ok token_name i Hi) as (r & ->). cbn [rbind].
      destruct (forallb invoice_ok l).
      * destruct IH as (rs & -> & Hl). exists (r :: rs).
        split; [reflexivity | cbn; rewrite Hl; reflexivity].
      * rewrite IH. reflexivity.
    + rewrite (make_row_raises token_name i Hi). reflexivity.
Qed.

(** X16. A credential whose fetch raises contributes nothing, not even
    the pages it had read: when the first page is read and the request
    for the second fails on the network, the task ends with that
    exception, and [all_rows] is gathered as if the credential were not
    there. *)
Theorem raised_fetch_contributes_nothing (listing : string -> http_layer)
  (fuel : nat) (token_name token_value : string) (r1 : response)
  (items : list pyval) (has_more cursor : pyval) (rows1 : list row) :
  let hdrs := bearer token_value in
  let rq0 := listing_request hdrs first_params in
  let rq1 := listing_request hdrs (with_cursor first_params cursor) in
  listing token_name 0%nat rq0 = Responds r1 ->
  is_page r1 items has_more cursor ->
  truthy has_more = true ->
  make_rows token_name items = Ok rows1 ->
  listing token_name 1%nat rq1 = Fails ->
  task listing (S (S fuel)) (token_name, token_value)
  = Exn [EGet rq0; ESleep (1 # 2); EGet rq1] ConnectionError
  /\ forall others all_rows w,
       gather (task listing (S (S fuel)) (token_name, token_value) :: others)
         all_rows w
       = gather others all_rows w.
Proof.
  intros hdrs rq0 rq1 H0 Hp Hm Hrows H1.
  assert (Ht : task listing (S (S fuel)) (token_name, token_value)
               = Exn [EGet rq0; ESleep (1 # 2); EGet rq1] ConnectionError).
  { unfold task, fetch_invoices_for_token. cbn [fst snd].
    fold hdrs. fold first_params.
    rewrite (fetch_loop_page (listing token_name) token_name hdrs _ _ _ _ _ _
               r1 items has_more cursor rows1);
      [|reflexivity|exact H0|exact Hp|exact Hrows].
    rewrite fetch_loop_unfold by assumption.
    change (with_cursor first_params PNone) with first_params.
    unfold request_with_retries.
    rewrite request_loop_fails; [reflexivity | lia | exact H1]. }
  split; [exact Ht|]. intros others all_rows w. rewrite Ht. reflexivity.
Qed.

Lemma raised_fetch_contributes_nothing_witness :
  let listing := fun _ : string =>
    fun n (_ : request) =>
      match n with
      | O => Responds (listing_page sample_items true (PStr "C1"))
      | _ => Fails
      end in
  task listing 2 ("acme", "t")
  = Exn [EGet (listing_request (bearer "t") first_params); ESleep (1 # 2);
         EGet (listing_request (bearer "t")
                 (set_cursor first_params (PStr "C1")))]
        ConnectionError.
Proof.
  intros listing.
  apply (raised_fetch_contributes_nothing listing 0 "acme" "t"
           (listing_page sample_items true (PStr "C1")) sample_items
           (PBool true) (PStr "C1")
           [invoice_row "acme" 120 true "validated" (PStr sample_url);
            invoice_row "acme" 80 false "validated" (PStr sample_url);
            invoice_row "acme" 45 true "archived" (PStr sample_url);
            invoice_row "acme" 30 true "validated" (PStr EmptyString)]);
    try reflexivity.
  split; [reflexivity | eexists; repeat split; reflexivity].
Defined.

Lemma byte_is_eq (n : nat) (a : ascii) :
  byte_is n a = true -> a = ascii_of_nat n.
Proof.
  unfold byte_is. intros H. apply Nat.eqb_eq in H. rewrite <- H.
  symmetry. apply ascii_nat_embedding.
Qed.

Lemma byte_in_list (lo hi : nat) (a : ascii) :
  byte_in lo hi a = true ->
  In a (map ascii_of_nat (seq lo (S hi - lo))).
Proof.
  unfold byte_in. intros H. apply andb_prop in H. destruct H as [Hlo Hhi].
  apply Nat.leb_le in Hlo, Hhi. rewrite <- (ascii_nat_embedding a).
  apply in_map. apply in_seq. lia.
Qed.

Ltac in_whitespace :=
  vm_compute; repeat (first [left; reflexivity | right]).

Lemma space1_in (a : ascii) :
  space1 a = true -> In (String a EmptyString) whitespace.
Proof.
  unfold space1. intros H. apply orb_prop in H.
  destruct H as [H|H]; apply byte_in_list in H; cbn in H;
    repeat (destruct H as [<-|H]; [in_whitespace|]); destruct H.
Qed.

Lemma space2_in (a b : ascii) :
  space2 a b = true -> In (String a (String b EmptyString)) whitespace.
Proof.
  unfold space2. intros H. apply andb_prop in H. destruct H as [Ha Hb].
  apply byte_is_eq in Ha. subst a. apply orb_prop in Hb.
  destruct Hb as [Hb|Hb]; apply byte_is_eq in Hb; subst b; in_whitespace.
Qed.

Lemma space3_in (a b c : ascii) :
  space3 a b c = true ->
  In (String a (String b (String c EmptyString))) whitespace.
Proof.
  unfold space3. intros H.
  apply orb_prop in H. destruct H as [H|H];
    [apply orb_prop in H; destruct H as [H|H];
     [apply orb_prop in H; destruct H as [H|H]|]|];
    apply andb_prop in H; destruct H as [H Hc];
    apply andb_prop in H; destruct H as [Ha Hb];
    apply byte_is_eq in Ha; apply byte_is_eq in Hb; subst a b.
  - apply byte_is_eq in Hc. subst c. in_whitespace.
  - apply orb_prop in Hc. destruct Hc as [Hc|Hc];
      [apply orb_prop in Hc; destruct Hc as [Hc|Hc]|].
    + apply byte_in_list in Hc. cbn in Hc.
      repeat (destruct Hc as [<-|Hc]; [in_whitespace|]). destruct Hc.
    + apply byte_in_list in Hc. cbn in Hc.
      repeat (destruct Hc as [<-|Hc]; [in_whitespace|]). destruct Hc.
    + apply byte_is_eq in Hc. subst c. in_whitespace.
  - apply byte_is_eq in Hc. subst c. in_whitespace.
  - apply byte_is_eq in Hc. subst c. in_whitespace.
Qed.

Lemma lstrip_eq (a : ascii) (s1 : string) :
  lstrip (String a s1)
  = if space1 a then lstrip s1
    else
      match s1 with
      | EmptyString => String a s1
      | String b s2 =>
          if space2 a b then lstrip s2
          else
            match s2 with
            | EmptyString => String a s1
            | String c s3 =>
                if space3 a b c then lstrip s3 else String a s1
            end
      end.
Proof. reflexivity. Qed.

(** Stripping on the left either removes one whitespace character and
    goes on, or stops and leaves the string as it is. *)
Lemma lstrip_cases (s : string) :
  (exists x r, In x whitespace /\ s = String.append x r
               /\ lstrip s = lstrip r)
  \/ lstrip s = s.
Proof.
  destruct s as [|a s1]; [right; reflexivity|]. rewrite lstrip_eq.
  destruct (space1 a) eqn:E1.
  { left. exists (String a EmptyString), s1.
    split; [apply space1_in; exact E1 | split; reflexivity]. }
  destruct s1 as [|b s2]; [right; reflexivity|].
  destruct (space2 a b) eqn:E2.
  { left. exists (String a (String b EmptyString)), s2.
    split; [apply space2_in; exact E2 | split; reflexivity]. }
  destruct s2 as [|c s3]; [right; reflexivity|].
  destruct (space3 a b c) eqn:E3; [|right; reflexivity].
  left. exists (String a (String b (String c EmptyString))), s3.
  split; [apply space3_in; exact E3 | split; reflexivity].
Qed.

Lemma lstrip_whitespace (x s : string) :
  In x whitespace -> lstrip (String.append x s) = lstrip s.
Proof.
  intros H. vm_compute in H.
  repeat (destruct H as [<-|H]; [reflexivity|]). destruct H.
Qed.

Lemma whitespace_longer (x r : string) :
  In x whitespace ->
  (String.length r < String.length (String.append x r))%nat.
Proof.
  intros H. vm_compute in H.
  repeat (destruct H as [<-|H]; [cbn; lia|]). destruct H.
Qed.

Lemma blank_lstrip (s : string) : blank s -> lstrip s = EmptyString.
Proof.
  induction 1 as [|x s Hx _ IH]; [reflexivity|].
  rewrite lstrip_whitespace by assumption. exact IH.
Qed.

Lemma lstrip_blank (n : nat) :
  forall s, (String.length s <= n)%nat -> lstrip s = EmptyString -> blank s.
Proof.
  induction n as [|n IH]; intros s Hn H;
    destruct (lstrip_cases s) as [(x & r & Hx & -> & Hl)|Hl];
    try (rewrite Hl in H; subst s; constructor);
    pose proof (whitespace_longer x r Hx) as Hlen.
  - lia.
  - apply blank_app; [exact Hx|]. apply IH; [lia|].
    rewrite <- Hl. exact H.
Qed.

Lemma lstrip_idempotent (n : nat) :
  forall s, (String.length s <= n)%nat -> lstrip (lstrip s) = lstrip s.
Proof.
  induction n as [|n IH]; intros s Hn;
    destruct (lstrip_cases s) as [(x & r & Hx & -> & Hl)|Hl];
    try (rewrite Hl; exact Hl);
    pose proof (whitespace_longer x r Hx) as Hlen.
  - lia.
  - rewrite Hl. apply IH. lia.
Qed.

Lemma rstrip_empty (t : string) :
  (rstrip t =? EmptyString)%string = (lstrip t =? EmptyString)%string.
Proof.
  destruct t as [|c t]; [reflexivity|]. cbn [rstrip].
  destruct (lstrip (String c t) =? EmptyString)%string; reflexivity.
Qed.

Lemma strip_blank (s : string) :
  (strip s =? EmptyString)%string = true <-> blank s.
Proof.
  unfold strip. rewrite rstrip_empty.
  rewrite (lstrip_idempotent (String.length s) s (le_n _)).
  rewrite String.eqb_eq. split.
  - apply (lstrip_blank (String.length s)). apply le_n.
  - apply blank_lstrip.
Qed.

(** X17. A string reference is skipped exactly when it is made of
    whitespace characters only, the empty string included: the characters
    [str.strip()] removes, of one, two or three bytes. Any other string
    goes on to the token lookup. *)
Theorem blank_reference_is_skipped (empty_array_truth : result bool)
  (s : string) :
  (blank s -> skip_row empty_array_truth (PStr s) = Ok true)
  /\ (~ blank s -> skip_row empty_array_truth (PStr s) = Ok false).
Proof.
  rewrite skip_row_not_list by discriminate.
  destruct (strip s =? EmptyString)%string eqn:E; split; intros H;
    try reflexivity.
  - destruct H. apply strip_blank. exact E.
  - apply strip_blank in H. congruence.
Qed.

Lemma blank_reference_is_skipped_witness :
  skip_row (Ok false) (PStr (bytes [32; 226; 128; 131; 194; 160; 9]%nat))
  = Ok true
  /\ skip_row (Ok false) (PStr sample_url) = Ok false.
Proof.
  split.
  - apply (blank_reference_is_skipped (Ok false)
             (bytes [32; 226; 128; 131; 194; 160; 9]%nat)).
    apply (blank_app (bytes [32]%nat) (bytes [226; 128; 131; 194; 160; 9]%nat));
      [in_whitespace|].
    apply (blank_app (bytes [226; 128; 131]%nat) (bytes [194; 160; 9]%nat));
      [in_whitespace|].
    apply (blank_app (bytes [194; 160]%nat) (bytes [9]%nat));
      [in_whitespace|].
    apply (blank_app (bytes [9]%nat) EmptyString); [in_whitespace|].
    apply blank_nil.
  - apply (blank_reference_is_skipped (Ok false) sample_url).
    intros H. apply blank_lstrip in H. discriminate H.
Defined.

(** ** A last page, and where loaded rows come from *)

(** X18. A readable page that reports no more data - [has_more] false,
    null or missing altogether - is the last one: the fetcher returns the
    rows held so far followed by the page's rows after that one request
    and the half-second wait, whatever cursor the page carries. *)
Theorem page_without_more_is_last (http : http_layer) (fuel : nat)
  (token_name : string) (hdrs : headers) (rows : list row)
  (cursor has_more : pyval) (ps : params) (w : trace) (r : response)
  (d : list (string * pyval)) (items : list pyval) (new_rows : list row) :
  let rq := listing_request hdrs (with_cursor ps cursor) in
  truthy has_more = true ->
  http (calls w) rq = Responds r ->
  status_code r = 200 ->
  json r = Some (PDict d) ->
  dict_get d "items" PNone = PList items ->
  make_rows token_name items = Ok new_rows ->
  truthy (dict_get d "has_more" (PBool false)) = false ->
  fetch_loop http (S fuel) token_name hdrs rows cursor has_more ps w
  = Val (w ++ [EGet rq; ESleep (1 # 2)]) (rows ++ new_rows).
Proof.
  intros rq Hm Hr Hs Hj Hi Hrows Hlast.
  rewrite (fetch_loop_page http token_name hdrs _ _ _ _ _ _ r items
             (dict_get d "has_more" (PBool false))
             (dict_get d "next_cursor" PNone) new_rows);
    try assumption.
  - apply fetch_loop_stop. exact Hlast.
  - split; [exact Hs|]. exists d. repeat split; assumption.
Qed.

Lemma page_without_more_is_last_witness :
  fetch_invoices_for_token
    (always (body (PDict [("items", PList [invoice 120 true "validated" PNone]);
                          ("next_cursor", PStr "C1")])))
    1 "acme" "t" []
  = Val [EGet (listing_request (bearer "t") first_params); ESleep (1 # 2)]
        [invoice_row "acme" 120 true "validated" PNone].
Proof.
  apply (page_without_more_is_last
           (always (body (PDict [("items", PList [invoice 120 true "validated" PNone]);
                                 ("next_cursor", PStr "C1")])))
           0 "acme" (bearer "t") [] PNone (PBool true) first_params []
           (body (PDict [("items", PList [invoice 120 true "validated" PNone]);
                         ("next_cursor", PStr "C1")]))
           [("items", PList [invoice 120 true "validated" PNone]);
            ("next_cursor", PStr "C1")]
           [invoice 120 true "validated" PNone]
           [invoice_row "acme" 120 true "validated" PNone]);
    reflexivity.
Defined.

Lemma gathered_rows_are_tagged (listing : string -> http_layer) (fuel : nat)
  (completed : list (string * string)) (r : row) :
  In r (List.concat (map rows_of (map (task listing fuel) completed))) ->
  In (tag r) (map fst completed).
Proof.
  induction completed as [|item completed IH]; cbn [map List.concat];
    [contradiction|].
  intros H. apply in_app_or in H. destruct H as [H|H]; [|right; auto].
  left. unfold task in H.
  destruct (fetch_invoices_for_token (listing (fst item)) fuel (fst item)
              (snd item) []) as [w rows|w e|w] eqn:Hf; cbn [rows_of] in H;
    try contradiction.
  unfold fetch_invoices_for_token in Hf. apply fetch_loop_rows in Hf.
  destruct Hf as (more & -> & Hmore). cbn [app] in H.
  rewrite Forall_forall in Hmore. symmetry. apply Hmore. exact H.
Qed.

(** X19. Every row handed to the load stage is attributed to one of the
    credentials that were fetched: its tag is the name of a credential of
    the run. *)
Theorem loaded_rows_are_attributed (empty_array_truth : result bool)
  (tokens : list (string * string)) (listing : string -> http_layer)
  (transactions : http_layer) (fuel : nat)
  (completed : list (string * string)) (w' : trace)
  (final : list enriched) (e : enriched) :
  script empty_array_truth tokens listing transactions fuel completed []
  = Val w' tt ->
  In final (loaded w') -> In e final ->
  In (tag (base e)) (map fst completed).
Proof.
  intros H Hf He. apply script_completed in H.
  destruct H as (evs & dates & -> & Hq & _ & _).
  rewrite loaded_app, Hq in Hf. cbn in Hf. destruct Hf as [<-|[]].
  apply dropna_has_date in He. destruct He as [He _].
  apply attach_base in He. apply filter_In in He. destruct He as [He _].
  eapply gathered_rows_are_tagged. exact He.
Qed.

Lemma loaded_rows_are_attributed_witness :
  In (tag (base {| base := invoice_row "acme" 120 true "validated"
                             (PStr sample_url);
                   transaction_date := PStr "2025-02-03" |}))
     (map fst sample_tokens).
Proof.
  apply (loaded_rows_are_attributed (Ok false) sample_tokens sample_listing
           sample_transactions 2 sample_tokens
           [EGet (transaction_request sample_url (bearer "t"));
            ELoad sample_final]
           sample_final).
  - reflexivity.
  - left. reflexivity.
  - left. reflexivity.
Defined.
